(** * WhatsApp appointment bot: the webhook handler, the notification
      dispatcher and the two sweep jobs of [backend/app.py], with the
      dispatcher and the handler of [backend/_app.py].

    The Python code is embedded shallowly.  A [str] is the [string] of its
    UTF-8 bytes, so that [in], concatenation and [len] are those of the
    source on any text; case mapping and date parsing are the library's
    and are parameters.  A [datetime] is a count of microseconds, which
    the store cuts down to milliseconds, the Mongo collection is a list
    of documents in natural order, and every function that talks to the
    store or to the messaging provider is a computation in a small
    state-and-exception monad [M] over a [World].  Whether a given external
    call succeeds is decided by an [Oracle], so that the [try]/[except]
    blocks of the source have something to catch. *)

From Stdlib Require Import ZArith List String Ascii Bool Arith Lia DecimalString.
Import ListNotations.

Local Open Scope string_scope.
Local Open Scope list_scope.

(* ------------------------------------------------------------------ *)
(** ** Text: [str.lower], [str.title], [in], decimal rendering          *)
(* ------------------------------------------------------------------ *)

Definition is_upper (c : ascii) : bool :=
  (65 <=? nat_of_ascii c)%nat && (nat_of_ascii c <=? 90)%nat.

Definition is_lower (c : ascii) : bool :=
  (97 <=? nat_of_ascii c)%nat && (nat_of_ascii c <=? 122)%nat.

Definition to_lower (c : ascii) : ascii :=
  if is_upper c then ascii_of_nat (nat_of_ascii c + 32) else c.

Definition to_upper (c : ascii) : ascii :=
  if is_lower c then ascii_of_nat (nat_of_ascii c - 32) else c.

(** [s.lower()] on ASCII text; other bytes are left alone. *)
Fixpoint ascii_lower (s : string) : string :=
  match s with
  | EmptyString => EmptyString
  | String c r => String (to_lower c) (ascii_lower r)
  end.

(** [s.title()] on ASCII text: a cased character is upper-cased when the
    previous character is not cased and lower-cased when it is. *)
Fixpoint ascii_title_from (previous_is_cased : bool) (s : string) : string :=
  match s with
  | EmptyString => EmptyString
  | String c r =>
      if is_lower c then
        String (if previous_is_cased then c else to_upper c)
               (ascii_title_from true r)
      else if is_upper c then
        String (if previous_is_cased then to_lower c else c)
               (ascii_title_from true r)
      else String c (ascii_title_from false r)
  end.

Definition ascii_title (s : string) : string := ascii_title_from false s.

(** Every byte of [s] is an ASCII character. *)
Fixpoint is_ascii (s : string) : bool :=
  match s with
  | EmptyString => true
  | String c r => (nat_of_ascii c <? 128)%nat && is_ascii r
  end.

(** [len(s)], the number of characters of [s]: the bytes of the UTF-8
    text that do not continue a character (those outside 128..191). *)
Fixpoint str_len (s : string) : nat :=
  match s with
  | EmptyString => 0
  | String c r =>
      ((if (128 <=? nat_of_ascii c)%nat && (nat_of_ascii c <? 192)%nat
        then 0 else 1) + str_len r)%nat
  end.

(** The two case operations of [str] the program calls, [s.lower()] and
    [s.title()].  They follow the Unicode tables of the interpreter and
    are taken as given, with the one fact about them the greeting rule
    rests on: an ASCII stretch of a text is lower-cased letter by letter,
    whatever stands around it. *)
Class TextLib := {
  lower : string -> string;
  title : string -> string;
  lower_respects_ascii :
    forall before occurrence after,
      is_ascii occurrence = true ->
      exists before' after',
        lower (before ++ occurrence ++ after)
        = (before' ++ ascii_lower occurrence ++ after')%string
}.

Lemma ascii_lower_app (a b : string) :
  ascii_lower (a ++ b) = (ascii_lower a ++ ascii_lower b)%string.
Proof. induction a as [|x a IH]; simpl; [reflexivity | now rewrite IH]. Qed.

Lemma ascii_lower_respects_ascii (before occurrence after : string) :
  is_ascii occurrence = true ->
  exists before' after',
    ascii_lower (before ++ occurrence ++ after)
    = (before' ++ ascii_lower occurrence ++ after')%string.
Proof.
  intros _. exists (ascii_lower before), (ascii_lower after).
  now rewrite !ascii_lower_app.
Qed.

(** The case operations on ASCII text, where they are the interpreter's;
    the examples below, all of them ASCII, run on this instance. *)
#[export] Instance ascii_text : TextLib := {
  lower := ascii_lower;
  title := ascii_title;
  lower_respects_ascii := ascii_lower_respects_ascii
}.

(** [s.startswith(p)] *)
Fixpoint startswith (p s : string) : bool :=
  match p, s with
  | EmptyString, _ => true
  | String _ _, EmptyString => false
  | String a p', String b s' => Ascii.eqb a b && startswith p' s'
  end.

(** [needle in hay] *)
Fixpoint contains (needle hay : string) : bool :=
  match hay with
  | EmptyString => startswith needle EmptyString
  | String _ r => startswith needle hay || contains needle r
  end.

(** [str(n)] for an integer *)
Definition str_int (n : Z) : string := NilZero.string_of_int (Z.to_int n).

Fixpoint zeros (k : nat) : string :=
  match k with O => EmptyString | S k' => String "0" (zeros k') end.

(** ["%0wd" % n]: decimal, left-padded with zeros to width [w] *)
Definition zfill (w : nat) (n : Z) : string :=
  let s := str_int n in zeros (w - String.length s) ++ s.

(* ------------------------------------------------------------------ *)
(** ** Dates and times                                                  *)
(* ------------------------------------------------------------------ *)

(** A naive [datetime], as the number of microseconds since
    0001-01-01 00:00:00 of the proleptic Gregorian calendar.  Comparison
    and [timedelta] arithmetic are those of [Z]. *)
Definition datetime := Z.

(** A [datetime] as the store sees it.  The driver encodes a datetime,
    in a document or in a query, as its whole milliseconds
    ([microsecond // 1000]), so the microseconds below the millisecond
    are cut off. *)
Definition bson_datetime (d : datetime) : datetime := (d / 1000 * 1000)%Z.

(** [timedelta(hours=h)] *)
Definition hours (h : Z) : Z := (h * 3600 * 1000000)%Z.

(** The two operations of the [datetime] library the program calls:
    [datetime.strptime(s, '%Y-%m-%d %H:%M')], where [None] stands for the
    [ValueError] it raises, and [str(d)]. *)
Class DatetimeLib := {
  strptime : string -> option datetime;
  str_datetime : datetime -> string
}.

Module Calendar.
Local Open Scope Z_scope.

Definition is_leap (year : Z) : bool :=
  (year mod 4 =? 0) && (negb (year mod 100 =? 0) || (year mod 400 =? 0)).

Definition days_before_year (year : Z) : Z :=
  let y := year - 1 in y * 365 + y / 4 - y / 100 + y / 400.

Definition days_in_month_table : list Z :=
  [-1; 31; 28; 31; 30; 31; 30; 31; 31; 30; 31; 30; 31].

Definition days_before_month_table : list Z :=
  [-1; 0; 31; 59; 90; 120; 151; 181; 212; 243; 273; 304; 334].

Definition days_in_month (year month : Z) : Z :=
  if (month =? 2) && is_leap year then 29
  else nth (Z.to_nat month) days_in_month_table 0.

Definition days_before_month (year month : Z) : Z :=
  nth (Z.to_nat month) days_before_month_table 0
  + (if (2 <? month) && is_leap year then 1 else 0).

Definition ymd2ord (year month day : Z) : Z :=
  days_before_year year + days_before_month year month + day.

Definition DI400Y := days_before_year 401.
Definition DI100Y := days_before_year 101.
Definition DI4Y := days_before_year 5.

Definition ord2ymd (ordinal : Z) : Z * Z * Z :=
  let n := ordinal - 1 in
  let n400 := n / DI400Y in let n := n mod DI400Y in
  let year := n400 * 400 + 1 in
  let n100 := n / DI100Y in let n := n mod DI100Y in
  let n4 := n / DI4Y in let n := n mod DI4Y in
  let n1 := n / 365 in let n := n mod 365 in
  let year := year + n100 * 100 + n4 * 4 + n1 in
  if (n1 =? 4) || (n100 =? 4) then (year - 1, 12, 31)
  else
    let leapyear := (n1 =? 3) && (negb (n4 =? 24) || (n100 =? 3)) in
    let month := Z.shiftr (n + 50) 5 in
    let preceding :=
      nth (Z.to_nat month) days_before_month_table 0
      + (if (2 <? month) && leapyear then 1 else 0) in
    if n <? preceding then
      let month := month - 1 in
      let preceding :=
        preceding - (nth (Z.to_nat month) days_in_month_table 0
                     + (if (month =? 2) && leapyear then 1 else 0)) in
      (year, month, n - preceding + 1)
    else (year, month, n - preceding + 1).

(** [datetime(year, month, day, hour, minute)]; [None] is the [ValueError]
    of an out-of-range field. *)
Definition make_datetime (year month day hour minute : Z) : option datetime :=
  if (1 <=? year) && (year <=? 9999) && (1 <=? month) && (month <=? 12)
     && (1 <=? day) && (day <=? days_in_month year month)
     && (0 <=? hour) && (hour <=? 23) && (0 <=? minute) && (minute <=? 59)
  then Some ((((ymd2ord year month day - 1) * 24 + hour) * 60 + minute)
             * 60 * 1000000)
  else None.

(** [str(d)], that is [d.isoformat(sep=' ')] *)
Definition isoformat (d : datetime) : string :=
  let us := d mod 1000000 in
  let s := d / 1000000 in
  let ss := s mod 60 in let m := s / 60 in
  let mm := m mod 60 in let h := m / 60 in
  let hh := h mod 24 in let days := h / 24 in
  let '(year, month, day) := ord2ymd (days + 1) in
  (zfill 4 year ++ "-" ++ zfill 2 month ++ "-" ++ zfill 2 day ++ " "
   ++ zfill 2 hh ++ ":" ++ zfill 2 mm ++ ":" ++ zfill 2 ss
   ++ (if (us =? 0)%Z then "" else "." ++ zfill 6 us))%string.

(** *** The regular expression of ['%Y-%m-%d %H:%M']

    [_strptime] turns the format into the pattern
    [(\d\d\d\d)-(1[0-2]|0[1-9]|[1-9])-(3[0-1]|[1-2]\d|0[1-9]|[1-9]| [1-9])\s+(2[0-3]|[0-1]\d|\d):([0-5]\d|\d)],
    takes its first match at the start of the text and rejects the text
    when that match stops short of its end.  A matcher is the list of its
    successes, in the order backtracking tries them. *)

Definition Matcher (A : Type) := string -> list (A * string).

(** [\d] on ASCII text: the ten digits 0 to 9. *)
Definition digit_value (c : ascii) : option Z :=
  let n := nat_of_ascii c in
  if (48 <=? n)%nat && (n <=? 57)%nat then Some (Z.of_nat (n - 48)) else None.

(** [\s] on ASCII text: tab to carriage return, the four separators
    28 to 31, and the space. *)
Definition is_space (c : ascii) : bool :=
  let n := nat_of_ascii c in
  ((9 <=? n)%nat && (n <=? 13)%nat) || ((28 <=? n)%nat && (n <=? 32)%nat).

Definition between (lo hi v : Z) : bool := (lo <=? v) && (v <=? hi).

(** one digit within [lo, hi] *)
Definition d1 (lo hi : Z) : Matcher Z := fun s =>
  match s with
  | String c r =>
      match digit_value c with
      | Some v => if between lo hi v then [(v, r)] else []
      | None => []
      end
  | EmptyString => []
  end.

Definition pure {A} (a : A) : Matcher A := fun s => [(a, s)].

(** [p] followed by [q]; a failure of [q] backtracks into [p] *)
Definition seq {A B} (p : Matcher A) (q : A -> Matcher B) : Matcher B :=
  fun s => flat_map (fun '(a, r) => q a r) (p s).

(** [p|q] *)
Definition alt {A} (p q : Matcher A) : Matcher A := fun s => p s ++ q s.

Definition char (c : ascii) : Matcher unit := fun s =>
  match s with
  | String c' r => if Ascii.eqb c c' then [(tt, r)] else []
  | EmptyString => []
  end.

(** two digits, the first within [lo1, hi1], the second within [lo2, hi2] *)
Definition d2 (lo1 hi1 lo2 hi2 : Z) : Matcher Z :=
  seq (d1 lo1 hi1) (fun a => seq (d1 lo2 hi2) (fun b => pure (10 * a + b))).

(** [\s+], greedy: the longest run first *)
Fixpoint spaces (s : string) : list (unit * string) :=
  match s with
  | String c r => if is_space c then spaces r ++ [(tt, r)] else []
  | EmptyString => []
  end.

Definition re_Y : Matcher Z :=
  seq (d2 0 9 0 9) (fun hi => seq (d2 0 9 0 9) (fun lo => pure (100 * hi + lo))).
Definition re_m : Matcher Z := alt (d2 1 1 0 2) (alt (d2 0 0 1 9) (d1 1 9)).
Definition re_d : Matcher Z :=
  alt (d2 3 3 0 1) (alt (d2 1 2 0 9) (alt (d2 0 0 1 9) (alt (d1 1 9)
      (seq (char " ") (fun _ => d1 1 9))))).
Definition re_H : Matcher Z := alt (d2 2 2 0 3) (alt (d2 0 1 0 9) (d1 0 9)).
Definition re_M : Matcher Z := alt (d2 0 5 0 9) (d1 0 9).

Definition format_regex : Matcher (Z * Z * Z * Z * Z) :=
  seq re_Y (fun Y => seq (char "-") (fun _ =>
  seq re_m (fun m => seq (char "-") (fun _ =>
  seq re_d (fun d => seq spaces (fun _ =>
  seq re_H (fun H => seq (char ":") (fun _ =>
  seq re_M (fun M => pure (Y, m, d, H, M)))))))))).

(** [datetime.strptime(data_string, '%Y-%m-%d %H:%M')] *)
Definition strptime_Ymd_HM (data_string : string) : option datetime :=
  match format_regex data_string with
  | [] => None                                 (* does not match format *)
  | (Y, m, d, H, M, rest) :: _ =>
      match rest with
      | EmptyString => make_datetime Y m d H M
      | String _ _ => None                     (* unconverted data remains *)
      end
  end.

End Calendar.

(** The library as CPython implements it, on ASCII text.  The digits and
    the white space of other scripts, which the regular expression of the
    interpreter also admits, are not read by this instance; the theorems
    are about any library, and the examples, all of them ASCII, run on
    this one. *)
#[export] Instance cpython : DatetimeLib := {
  strptime := Calendar.strptime_Ymd_HM;
  str_datetime := Calendar.isoformat
}.

(* ------------------------------------------------------------------ *)
(** ** The world: appointment collection, provider, log                 *)
(* ------------------------------------------------------------------ *)

(** A document of the [appointments] collection.  [_id] is the key the
    driver assigns on insertion. *)
Record Appointment := {
  _id : nat;
  customer_name : string;
  phone_number : string;
  service : string;
  appointment_date : datetime;
  reminder_sent : bool;
  follow_up_sent : bool
}.

Inductive Flag := ReminderSent | FollowUpSent.

Definition get_flag (f : Flag) (a : Appointment) : bool :=
  match f with
  | ReminderSent => reminder_sent a
  | FollowUpSent => follow_up_sent a
  end.

(** [{"$set": {flag: True}}] *)
Definition set_flag (f : Flag) (a : Appointment) : Appointment :=
  match f with
  | ReminderSent =>
      {| _id := _id a; customer_name := customer_name a;
         phone_number := phone_number a; service := service a;
         appointment_date := appointment_date a;
         reminder_sent := true; follow_up_sent := follow_up_sent a |}
  | FollowUpSent =>
      {| _id := _id a; customer_name := customer_name a;
         phone_number := phone_number a; service := service a;
         appointment_date := appointment_date a;
         reminder_sent := reminder_sent a; follow_up_sent := true |}
  end.

(** A quick-reply button [{"reply": {"id": ..., "title": ...}}] *)
Record Button := { reply_id : string; reply_title : string }.

(** What is handed to [twilio_client.messages.create] besides the fixed
    sender: a plain [body]; the [body] that is the JSON dump of an
    interactive button message ([app.py]); or a [body] together with
    [persistent_action] ([_app.py]). *)
Inductive Payload :=
| Text (body : string)
| InteractiveJson (text : string) (buttons : list Button)
| PersistentAction (body : string) (actions : list Button).

(** The external calls of the program.  [about] on a provider call is
    instrumentation: the [_id] of the appointment whose loop iteration
    makes the call, which the provider never sees. *)
Inductive Call :=
| FindOne (phone : string) (since : datetime)
| DeleteOne (id : nat)
| InsertOne (doc : Appointment)
| Find (lo hi : datetime) (unset : Flag)
| UpdateOne (id : nat) (flag : Flag)
| MessagesCreate (about : option nat) (to : string) (payload : Payload).

Record Event := { call : Call; succeeded : bool }.

Inductive Level := DEBUG | INFO | WARNING | ERROR.

Record LogRecord := { level : Level; message : string }.

Record World := {
  db : list Appointment;      (* the collection, in natural order *)
  next_id : nat;              (* the next key the driver hands out *)
  trace : list Event;         (* external calls so far, oldest first *)
  log : list LogRecord        (* [app.logger], oldest first *)
}.

(** Whether the external call made when [k] calls have already been made
    goes through; a call that does not raises in the caller. *)
Record Oracle := {
  mongo_up : nat -> bool;
  twilio_up : nat -> bool
}.

Inductive Exn :=
| ValueError (msg : string)
| PyMongoError
| TwilioRestException
| HTTPException (code : nat).

Inductive Result (A : Type) :=
| Ok (a : A)
| Raise (e : Exn).
Arguments Ok {A} a.
Arguments Raise {A} e.

Definition M (A : Type) : Type := Oracle -> World -> Result A * World.

Definition ret {A} (a : A) : M A := fun _ w => (Ok a, w).

Definition bind {A B} (c : M A) (k : A -> M B) : M B := fun o w =>
  match c o w with
  | (Ok a, w') => k a o w'
  | (Raise e, w') => (Raise e, w')
  end.

Definition raise {A} (e : Exn) : M A := fun _ w => (Raise e, w).

Notation "x <- c ;; k" := (bind c (fun x => k))
  (at level 61, c at next level, right associativity).
Notation "c ;; k" := (bind c (fun _ => k))
  (at level 61, right associativity).

(** [try: body  except <class> as e: handler e] *)
Definition try_except {A} (body : M A) (class : Exn -> bool)
    (handler : Exn -> M A) : M A := fun o w =>
  match body o w with
  | (Ok a, w') => (Ok a, w')
  | (Raise e, w') => if class e then handler e o w' else (Raise e, w')
  end.

(** [except Exception] and [except ValueError] *)
Definition Exception (e : Exn) : bool := true.
Definition IsValueError (e : Exn) : bool :=
  match e with ValueError _ => true | _ => false end.

(** [str(e)]; the text of a driver or provider error is not fixed by the
    program, the name of its class stands for it. *)
Definition str_exn (e : Exn) : string :=
  match e with
  | ValueError msg => msg
  | PyMongoError => "PyMongoError"
  | TwilioRestException => "TwilioRestException"
  | HTTPException code => str_int (Z.of_nat code)
  end.

(** [for x in xs: body x] *)
Fixpoint for_each {A} (xs : list A) (body : A -> M unit) : M unit :=
  match xs with
  | [] => ret tt
  | x :: rest => body x ;; for_each rest body
  end.

Definition with_db (docs : list Appointment) (w : World) : World :=
  {| db := docs; next_id := next_id w; trace := trace w; log := log w |}.

Definition with_event (c : Call) (ok : bool) (w : World) : World :=
  {| db := db w; next_id := next_id w;
     trace := trace w ++ [{| call := c; succeeded := ok |}]; log := log w |}.

Definition logger (lvl : Level) (msg : string) : M unit := fun _ w =>
  (Ok tt, {| db := db w; next_id := next_id w; trace := trace w;
             log := log w ++ [{| level := lvl; message := msg |}] |}).

(** *** The collection *)

Fixpoint delete_first (id : nat) (docs : list Appointment) : list Appointment :=
  match docs with
  | [] => []
  | a :: rest => if (_id a =? id)%nat then rest else a :: delete_first id rest
  end.

Fixpoint update_first (id : nat) (f : Flag) (docs : list Appointment)
    : list Appointment :=
  match docs with
  | [] => []
  | a :: rest =>
      if (_id a =? id)%nat then set_flag f a :: rest
      else a :: update_first id f rest
  end.

(** A call to the store: recorded, then either it raises or the operation
    [op] runs on the collection. *)
Definition mongo {A} (c : Call) (op : list Appointment -> A * list Appointment)
    : M A := fun o w =>
  let up := mongo_up o (List.length (trace w)) in
  let w1 := with_event c up w in
  if up then let (a, docs) := op (db w) in (Ok a, with_db docs w1)
  else (Raise PyMongoError, w1).

(** [appointments.find_one({"phone_number": phone,
                            "appointment_date": {"$gte": since}})] *)
Definition upcoming_for (phone : string) (since : datetime) (a : Appointment)
    : bool :=
  String.eqb (phone_number a) phone
  && (bson_datetime since <=? bson_datetime (appointment_date a))%Z.

Definition find_one (phone : string) (since : datetime)
    : M (option Appointment) :=
  mongo (FindOne phone since) (fun docs =>
    (find (upcoming_for phone since) docs, docs)).

(** [appointments.delete_one({"_id": id})] *)
Definition delete_one (id : nat) : M unit :=
  mongo (DeleteOne id) (fun docs => (tt, delete_first id docs)).

(** A document as it is encoded for the store. *)
Definition to_bson (a : Appointment) : Appointment :=
  {| _id := _id a; customer_name := customer_name a;
     phone_number := phone_number a; service := service a;
     appointment_date := bson_datetime (appointment_date a);
     reminder_sent := reminder_sent a; follow_up_sent := follow_up_sent a |}.

(** [appointments.insert_one(doc)]; the driver picks the [_id]. *)
Definition insert_one (doc : nat -> Appointment) : M unit := fun o w =>
  match mongo (InsertOne (to_bson (doc (next_id w))))
              (fun docs => (tt, docs ++ [to_bson (doc (next_id w))])) o w with
  | (Ok tt, w') =>
      (Ok tt, {| db := db w'; next_id := S (next_id w');
                 trace := trace w'; log := log w' |})
  | r => r
  end.

(** [appointments.find({"appointment_date": {"$gte": lo, "$lte": hi},
                        flag: False})]; the cursor is read as the list of
    the documents that match when the query is made. *)
Definition in_window (lo hi : datetime) (unset : Flag) (a : Appointment) : bool :=
  (bson_datetime lo <=? bson_datetime (appointment_date a))%Z
  && (bson_datetime (appointment_date a) <=? bson_datetime hi)%Z
  && negb (get_flag unset a).

Definition find_many (lo hi : datetime) (unset : Flag) : M (list Appointment) :=
  mongo (Find lo hi unset) (fun docs => (filter (in_window lo hi unset) docs, docs)).

(** [appointments.update_one({"_id": id}, {"$set": {flag: True}})] *)
Definition update_one (id : nat) (flag : Flag) : M unit :=
  mongo (UpdateOne id flag) (fun docs => (tt, update_first id flag docs)).

(** *** The provider *)

(** [twilio_client.messages.create(from_='whatsapp:+14155238886', to=...,
    ...)]; the result is the message, which stands for its [sid]. *)
Definition messages_create (about : option nat) (to : string) (p : Payload)
    : M nat := fun o w =>
  let k := List.length (trace w) in
  let up := twilio_up o k in
  let w1 := with_event (MessagesCreate about to p) up w in
  if up then (Ok k, w1) else (Raise TwilioRestException, w1).

(* ------------------------------------------------------------------ *)
(** ** [backend/app.py]                                                 *)
(* ------------------------------------------------------------------ *)

(** [len(xs)] *)
Definition len {A} (xs : list A) : Z := Z.of_nat (List.length xs).

(** The [<Message>] of the TwiML response: its body once [msg.body] has
    been called, [None] while it has not. *)
Definition Response := option string.

(** The webhook request, as far as the program looks at it: the two form
    fields the handler reads ([''] when a field is missing), the verdict
    of [validator.validate] of the file that handles the request on its
    URL, form and signature, and what the validation and the handler
    quote in the log: [request.url], [request.host], [request.path], the
    headers [X-Twilio-Signature] and [X-Forwarded-Proto] ([''] when
    absent), and the texts of [request.form] and [request.values]. *)
Record Request := {
  form_Body : string;
  form_From : string;
  signature_valid : bool;
  request_url : string;
  request_host : string;
  request_path : string;
  header_signature : string;
  header_forwarded_proto : string;
  form_text : string;
  values_text : string
}.

(** The URL [validate_twilio_request] hands to the validator: rebuilt
    from the forwarded protocol when the request came through a proxy. *)
Definition validated_url (request : Request) : string :=
  match header_forwarded_proto request with
  | EmptyString => request_url request
  | proto => proto ++ "://" ++ request_host request ++ request_path request
  end.

Definition validate_twilio_request (request : Request) : M bool :=
  let url := validated_url request in
  let signature := header_signature request in
  logger DEBUG ("Validating request: URL=" ++ url ++ ", Signature=" ++ signature) ;;
  if negb (signature_valid request) then
    logger WARNING "Invalid Twilio request" ;;
    logger DEBUG ("Request details: URL=" ++ url ++ ", POST data="
                  ++ form_text request ++ ", Signature=" ++ signature) ;;
    ret false
  else
    logger DEBUG "Twilio request validated successfully" ;;
    ret true.

Definition send_interactive_message (to message : string)
    (buttons : list Button) : M (option nat) :=
  try_except
    (buttons <-
       (if (3 <? len buttons)%Z then
          logger WARNING ("Too many buttons provided (" ++ str_int (len buttons)
                          ++ "). Limiting to 3.") ;;
          ret (firstn 3 buttons)
        else ret buttons) ;;
     sid <- messages_create None to (InteractiveJson message buttons) ;;
     logger INFO ("Sent interactive message to " ++ to ++ " with "
                  ++ str_int (len buttons) ++ " buttons") ;;
     ret (Some sid))
    Exception
    (fun e =>
       logger ERROR ("Failed to send interactive message: " ++ str_exn e) ;;
       ret None).

Definition greeting_msg : string :=
  "Welcome to our appointment booking service! How can we help you today?".

Definition greeting_buttons : list Button :=
  [ {| reply_id := "book_now"; reply_title := "Book Now" |};
    {| reply_id := "book_later"; reply_title := "Book Later" |} ].

Definition service_prompt : string :=
  "What service would you like to book? (e.g., Haircut, Consultation, etc.)".

Definition book_later_reply : string :=
  "No problem! When you're ready to book, just type 'book' and we'll assist you.".

Definition nothing_to_cancel : string :=
  "You don't have any upcoming appointments to cancel.".

Definition cancelled_reply (a : Appointment) `{DatetimeLib} : string :=
  "Your appointment for " ++ service a ++ " on "
  ++ str_datetime (appointment_date a) ++ " has been cancelled.".

Definition date_prompt (service : string) : string :=
  "When would you like to schedule your " ++ service
  ++ "? Please provide the date and time in this format: YYYY-MM-DD HH:MM.".

Definition scheduled_reply (service : string) (d : datetime) `{DatetimeLib}
    : string :=
  "Your " ++ service ++ " is scheduled for " ++ str_datetime d
  ++ ". You will receive a reminder 24 hours before the appointment.".

Definition invalid_date_reply : string :=
  "Invalid date format or date is in the past. Please use YYYY-MM-DD HH:MM for a future date and time.".

Definition fallback_reply : string :=
  "I didn't understand that. Type 'hi' for options or 'book' to book an appointment.".

Definition apology_reply : string :=
  "An error occurred while processing your request. Please try again later.".

Section Program.
Context {lib : DatetimeLib} {txt : TextLib}.

(** The [cancel_booking] branch of [whatsapp_reply] (lines 138 to 146). *)
Definition cancel_branch (sender_number : string) (now : datetime)
    : M Response :=
  existing_appointment <- find_one sender_number now ;;
  reply <-
    match existing_appointment with
    | Some a =>
        delete_one (_id a) ;;
        logger INFO ("Cancelled appointment for " ++ sender_number) ;;
        ret (Some (cancelled_reply a))
    | None => ret (Some nothing_to_cancel)
    end ;;
  logger DEBUG (sender_number ++ " attempted to cancel a booking.") ;;
  ret reply.

(** The date and time branch of [whatsapp_reply] (lines 151 to 170), with
    its own [try]/[except ValueError].  The text of the [ValueError] of
    [strptime] is the library's; a fixed text stands for it in the log. *)
Definition date_branch (incoming_msg sender_number service : string)
    (now : datetime) : M Response :=
  try_except
    (appointment_date <-
       match strptime incoming_msg with
       | Some d => ret d
       | None => raise (ValueError "time data does not match format")
       end ;;
     (if (appointment_date <? now)%Z
      then raise (ValueError "Appointment date is in the past")
      else ret tt) ;;
     logger INFO ("Scheduling " ++ service ++ " for " ++ sender_number ++ " on "
                  ++ str_datetime appointment_date ++ ".") ;;
     insert_one (fun id =>
       {| _id := id;
          customer_name := "Customer";
          phone_number := sender_number;
          service := service;
          appointment_date := appointment_date;
          reminder_sent := false;
          follow_up_sent := false |}) ;;
     ret (Some (scheduled_reply service appointment_date)))
    IsValueError
    (fun e =>
       logger ERROR ("Invalid date format provided by " ++ sender_number ++ ": "
                     ++ incoming_msg ++ ". Error: " ++ str_exn e) ;;
       ret (Some invalid_date_reply)).

(** [whatsapp_reply], the handler of [POST /whatsapp].  [now] is the value
    [datetime.now()] has while the request is handled. *)
Definition whatsapp_reply (request : Request) (now : datetime) : M Response :=
  valid <- validate_twilio_request request ;;
  if negb valid then raise (HTTPException 403) else
  let incoming_msg := lower (form_Body request) in
  let sender_number := form_From request in
  let service := "" in
  logger INFO ("Received message from " ++ sender_number ++ ": " ++ incoming_msg) ;;
  logger DEBUG ("Full request details: " ++ values_text request) ;;
  try_except
    (if contains "hi" incoming_msg || contains "hello" incoming_msg then
       send_interactive_message sender_number greeting_msg greeting_buttons ;;
       ret None
     else if contains "book_now" incoming_msg || contains "book" incoming_msg then
       logger DEBUG ("Asked " ++ sender_number ++ " for service type.") ;;
       ret (Some service_prompt)
     else if contains "book_later" incoming_msg then
       logger DEBUG (sender_number ++ " chose to book later.") ;;
       ret (Some book_later_reply)
     else if contains "cancel_booking" incoming_msg then
       cancel_branch sender_number now
     else if contains "haircut" incoming_msg
             || contains "consultation" incoming_msg then
       let service := title incoming_msg in
       logger DEBUG (sender_number ++ " is booking a " ++ service ++ ".") ;;
       ret (Some (date_prompt service))
     else if (str_len incoming_msg =? 16)%nat then
       date_branch incoming_msg sender_number service now
     else
       logger WARNING ("Unrecognized message from " ++ sender_number ++ ": "
                       ++ incoming_msg) ;;
       ret (Some fallback_reply))
    Exception
    (fun e =>
       logger ERROR ("Error processing message from " ++ sender_number ++ ": "
                     ++ str_exn e) ;;
       ret (Some apology_reply)).

Definition reminder_text (appointment : Appointment) : string :=
  "Reminder: Your " ++ service appointment ++ " appointment is scheduled for "
  ++ str_datetime (appointment_date appointment) ++ ".".

Definition follow_up_text (appointment : Appointment) : string :=
  "Hope you enjoyed your " ++ service appointment
  ++ "! Let us know if you need anything else.".

Definition describe (appointment : Appointment) : string :=
  phone_number appointment ++ " for " ++ service appointment ++ " on "
  ++ str_datetime (appointment_date appointment) ++ ".".

(** [send_reminder]; [now] is what its one call of [datetime.now()]
    returns. *)
Definition send_reminder (now : datetime) : M unit :=
  logger INFO "Running reminder job." ;;
  reminder_appointments <-
    find_many (now + hours 23)%Z (now + hours 25)%Z ReminderSent ;;
  for_each reminder_appointments (fun appointment =>
    try_except
      (messages_create (Some (_id appointment)) (phone_number appointment)
                       (Text (reminder_text appointment)) ;;
       logger INFO ("Sent reminder to " ++ describe appointment) ;;
       update_one (_id appointment) ReminderSent)
      Exception
      (fun e =>
         logger ERROR ("Failed to send reminder to "
                       ++ phone_number appointment ++ ": " ++ str_exn e))).

(** [send_follow_up] *)
Definition send_follow_up (now : datetime) : M unit :=
  logger INFO "Running follow-up job." ;;
  follow_up_appointments <-
    find_many (now - hours 24)%Z now FollowUpSent ;;
  for_each follow_up_appointments (fun appointment =>
    try_except
      (messages_create (Some (_id appointment)) (phone_number appointment)
                       (Text (follow_up_text appointment)) ;;
       logger INFO ("Sent follow-up to " ++ describe appointment) ;;
       update_one (_id appointment) FollowUpSent)
      Exception
      (fun e =>
         logger ERROR ("Failed to send follow-up to "
                       ++ phone_number appointment ++ ": " ++ str_exn e))).

End Program.

(* ------------------------------------------------------------------ *)
(** ** [backend/_app.py]: the dispatcher of the second variant          *)
(* ------------------------------------------------------------------ *)

Module _app.

(** [range(0, n, step)] *)
Definition range_step (n step : nat) : list nat :=
  map (fun k => k * step)%nat (seq 0 ((n + (step - 1)) / step)).

Definition send_single_interactive_message (to message : string)
    (buttons : list Button) : M (option nat) :=
  try_except
    (buttons <-
       (if (2 <? len buttons)%Z then
          logger WARNING ("Too many buttons provided (" ++ str_int (len buttons)
                          ++ "). Limiting to 2.") ;;
          ret (firstn 2 buttons)
        else ret buttons) ;;
     sid <- messages_create None to (PersistentAction message buttons) ;;
     logger INFO ("Sent single interactive message to " ++ to ++ " with "
                  ++ str_int (len buttons) ++ " buttons") ;;
     ret (Some sid))
    Exception
    (fun e =>
       logger ERROR ("Failed to send single interactive message: " ++ str_exn e) ;;
       ret None).

Definition max_buttons_per_message : nat := 5.

Definition button_chunks (buttons : list Button) : list (list Button) :=
  map (fun i => firstn max_buttons_per_message (skipn i buttons))
      (range_step (List.length buttons) max_buttons_per_message).

Definition send_interactive_message (to message : string)
    (buttons : list Button) : M (option bool) :=
  try_except
    (for_each (button_chunks buttons) (fun chunk =>
       send_single_interactive_message to message chunk ;; ret tt) ;;
     logger INFO ("Sent interactive message to " ++ to ++ " with "
                  ++ str_int (len buttons) ++ " buttons") ;;
     ret (Some true))
    Exception
    (fun e =>
       logger ERROR ("Failed to send interactive message: " ++ str_exn e) ;;
       match e with
       | TwilioRestException =>
           logger ERROR "Twilio error message: TwilioRestException" ;;
           logger ERROR "Twilio error code: TwilioRestException" ;;
           ret None
       | _ => ret None
       end).

Section Handler.
Context {lib : DatetimeLib} {txt : TextLib}.

(** The date and time branch of [whatsapp_reply] in [_app.py] (lines 152
    to 176): as in [app.py], with a message to a fixed number sent before
    the insertion. *)
Definition date_branch (incoming_msg sender_number service : string)
    (now : datetime) : M Response :=
  try_except
    (appointment_date <-
       match strptime incoming_msg with
       | Some d => ret d
       | None => raise (ValueError "time data does not match format")
       end ;;
     (if (appointment_date <? now)%Z
      then raise (ValueError "Appointment date is in the past")
      else ret tt) ;;
     logger INFO ("Scheduling " ++ service ++ " for " ++ sender_number ++ " on "
                  ++ str_datetime appointment_date ++ ".") ;;
     messages_create None "whatsapp:+918411005883" (Text "Lavdya") ;;
     insert_one (fun id =>
       {| _id := id;
          customer_name := "Customer";
          phone_number := sender_number;
          service := service;
          appointment_date := appointment_date;
          reminder_sent := false;
          follow_up_sent := false |}) ;;
     ret (Some (scheduled_reply service appointment_date)))
    IsValueError
    (fun e =>
       logger ERROR ("Invalid date format provided by " ++ sender_number ++ ": "
                     ++ incoming_msg ++ ". Error: " ++ str_exn e) ;;
       ret (Some invalid_date_reply)).

(** [whatsapp_reply] of [_app.py].  Its cancellation branch is the one of
    [app.py], word for word. *)
Definition whatsapp_reply (request : Request) (now : datetime) : M Response :=
  valid <- validate_twilio_request request ;;
  if negb valid then raise (HTTPException 403) else
  let incoming_msg := lower (form_Body request) in
  let sender_number := form_From request in
  let service := "" in
  logger INFO ("Received message from " ++ sender_number ++ ": " ++ incoming_msg) ;;
  try_except
    (if contains "hi" incoming_msg || contains "hello" incoming_msg then
       send_interactive_message sender_number greeting_msg greeting_buttons ;;
       ret None
     else if contains "book_now" incoming_msg || contains "book" incoming_msg then
       logger DEBUG ("Asked " ++ sender_number ++ " for service type.") ;;
       ret (Some service_prompt)
     else if contains "book_later" incoming_msg then
       logger DEBUG (sender_number ++ " chose to book later.") ;;
       ret (Some book_later_reply)
     else if contains "cancel_booking" incoming_msg then
       cancel_branch sender_number now
     else if contains "haircut" incoming_msg
             || contains "consultation" incoming_msg then
       let service := title incoming_msg in
       logger DEBUG (sender_number ++ " is booking a " ++ service ++ ".") ;;
       ret (Some (date_prompt service))
     else if (str_len incoming_msg =? 16)%nat then
       date_branch incoming_msg sender_number service now
     else
       logger WARNING ("Unrecognized message from " ++ sender_number ++ ": "
                       ++ incoming_msg) ;;
       ret (Some fallback_reply))
    Exception
    (fun e =>
       logger ERROR ("Error processing message from " ++ sender_number ++ ": "
                     ++ str_exn e) ;;
       ret (Some apology_reply)).

End Handler.

End _app.

(* ------------------------------------------------------------------ *)
(** ** Vocabulary of the statements                                     *)
(* ------------------------------------------------------------------ *)

(** [word] occurs in [text] in some mix of upper and lower case, with any
    text around it. *)
Definition mentions (word text : string) : Prop :=
  exists before occurrence after,
    text = (before ++ occurrence ++ after)%string
    /\ ascii_lower occurrence = word.

(** No rule before the date and time rule claims the (lower-cased)
    message, and the message is sixteen characters long. *)
Definition reaches_date_branch (incoming_msg : string) : bool :=
  negb (contains "hi" incoming_msg || contains "hello" incoming_msg)
  && negb (contains "book_now" incoming_msg || contains "book" incoming_msg)
  && negb (contains "book_later" incoming_msg)
  && negb (contains "cancel_booking" incoming_msg)
  && negb (contains "haircut" incoming_msg || contains "consultation" incoming_msg)
  && (str_len incoming_msg =? 16)%nat.

(** The store answers every call. *)
Definition store_reliable (o : Oracle) : Prop := forall k, mongo_up o k = true.

(** The provider answers every call. *)
Definition provider_reliable (o : Oracle) : Prop :=
  forall k, twilio_up o k = true.

(** The provider and the store answer every call. *)
Definition healthy : Oracle :=
  {| mongo_up := fun _ => true; twilio_up := fun _ => true |}.

(** Every document has its own key, below the next key to hand out. *)
Definition store_wf (w : World) : Prop :=
  NoDup (map _id (db w)) /\ forall a, In a (db w) -> (_id a < next_id w)%nat.

Definition is_store_call (c : Call) : bool :=
  match c with MessagesCreate _ _ _ => false | _ => true end.

(** The provider calls among [evs], in order, whatever their outcome. *)
Fixpoint attempts (evs : list Event) : list (option nat * string * Payload) :=
  match evs with
  | [] => []
  | {| call := MessagesCreate about to p |} :: rest => (about, to, p) :: attempts rest
  | _ :: rest => attempts rest
  end.

(** The appointments for which [evs] holds a provider call that went
    through. *)
Fixpoint delivered (evs : list Event) : list nat :=
  match evs with
  | [] => []
  | {| call := MessagesCreate (Some id) _ _; succeeded := true |} :: rest =>
      id :: delivered rest
  | _ :: rest => delivered rest
  end.

(** The body of the loop of either sweep, the two having the same shape:
    [flag] is the flag to set, [text] the message, [sent] and [failed] the
    openings of the two log lines. *)
Definition notify `{DatetimeLib} (flag : Flag) (text : Appointment -> string)
    (sent failed : string) (appointment : Appointment) : M unit :=
  try_except
    (messages_create (Some (_id appointment)) (phone_number appointment)
                     (Text (text appointment)) ;;
     logger INFO (sent ++ describe appointment) ;;
     update_one (_id appointment) flag)
    Exception
    (fun e =>
       logger ERROR (failed ++ phone_number appointment ++ ": " ++ str_exn e)).

(** A sweep: the start line in the log, the query, the loop. *)
Definition sweep `{DatetimeLib} (start : string) (lo hi : datetime)
    (flag : Flag) (text : Appointment -> string) (sent failed : string)
    : M unit :=
  logger INFO start ;;
  selected <- find_many lo hi flag ;;
  for_each selected (notify flag text sent failed).

(** The events of one iteration of a sweep over [a]: the provider call
    and, only when it went through, the update of the flag. *)
Definition record_events (flag : Flag) (text : Appointment -> string)
    (a : Appointment) (dispatched updated : bool) : list Event :=
  {| call := MessagesCreate (Some (_id a)) (phone_number a) (Text (text a));
     succeeded := dispatched |}
  :: (if dispatched
      then [{| call := UpdateOne (_id a) flag; succeeded := updated |}]
      else []).

Definition sweep_events (flag : Flag) (text : Appointment -> string)
    (runs : list (Appointment * (bool * bool))) : list Event :=
  List.concat (map (fun '(a, (d, u)) => record_events flag text a d u) runs).

(** [id] is the key of a record of [runs] that was both dispatched and
    updated. *)
Definition flagged (runs : list (Appointment * (bool * bool))) (id : nat)
    : bool :=
  existsb (fun '(a, (d, u)) => (_id a =? id)%nat && d && u) runs.

Definition errors (l : list LogRecord) : nat :=
  List.length (filter (fun r => match level r with ERROR => true | _ => false end) l).

(** [a'] is [a] with [flag] set and nothing else changed. *)
Definition flag_raised (flag : Flag) (a a' : Appointment) : Prop :=
  _id a' = _id a
  /\ customer_name a' = customer_name a
  /\ phone_number a' = phone_number a
  /\ service a' = service a
  /\ appointment_date a' = appointment_date a
  /\ get_flag flag a' = true
  /\ match flag with
     | ReminderSent => follow_up_sent a' = follow_up_sent a
     | FollowUpSent => reminder_sent a' = reminder_sent a
     end.

(** What a tick of a sweep leaves behind, given the window [lo, hi], the
    flag and the text of the message.  The records selected are those
    with the flag unset whose date lies in the window, the date and the
    two bounds taken to the millisecond; for a date that is a whole number
    of milliseconds this is the window from [lo] cut down to the
    millisecond up to [hi].  Then come the query, record by record in
    store order the dispatch and, after a dispatch that went through, the
    update; the flag is set on exactly the selected records whose dispatch
    and update both went through; every failed iteration is one error in
    the log; the job returns. *)
Definition sweep_outcome (flag : Flag) (lo hi : datetime)
    (text : Appointment -> string) (w : World) (r : Result unit * World)
    : Prop :=
  let selected := filter (in_window lo hi flag) (db w) in
  (forall a, In a selected <->
             In a (db w)
             /\ (bson_datetime lo <= bson_datetime (appointment_date a)
                 <= bson_datetime hi)%Z
             /\ get_flag flag a = false)
  /\ (forall a, bson_datetime (appointment_date a) = appointment_date a ->
                (In a selected <->
                 In a (db w)
                 /\ (bson_datetime lo <= appointment_date a <= hi)%Z
                 /\ get_flag flag a = false))
  /\ exists outcomes logs,
      List.length outcomes = List.length selected
      /\ fst r = Ok tt
      /\ trace (snd r)
         = trace w ++ {| call := Find lo hi flag; succeeded := true |}
                      :: sweep_events flag text (combine selected outcomes)
      /\ db (snd r)
         = map (fun a => if flagged (combine selected outcomes) (_id a)
                         then set_flag flag a else a) (db w)
      /\ next_id (snd r) = next_id w
      /\ log (snd r) = log w ++ logs
      /\ errors logs
         = List.length (filter (fun '(d, u) => negb (d && u)) outcomes).

(** [a'] is a later state of the document [a]: same key, same date, and
    no flag taken back. *)
Definition descends (a a' : Appointment) : Prop :=
  _id a' = _id a
  /\ appointment_date a' = appointment_date a
  /\ (reminder_sent a = true -> reminder_sent a' = true)
  /\ (follow_up_sent a = true -> follow_up_sent a' = true).

(** From [w] to [w'] keys are only handed out, and every document of
    [w'] is either new or a later state of a document of [w]. *)
Definition evolves (w w' : World) : Prop :=
  (next_id w <= next_id w')%nat
  /\ forall a', In a' (db w') ->
       (next_id w <= _id a')%nat \/ exists a, In a (db w) /\ descends a a'.

(** The button groups of the provider calls among [evs]. *)
Definition button_groups (evs : list Event) : list (list Button) :=
  flat_map (fun '(_, _, p) =>
              match p with
              | InteractiveJson _ bs => [bs]
              | PersistentAction _ bs => [bs]
              | Text _ => []
              end) (attempts evs).

(** One transition of the system: a webhook request, or a tick of either
    sweep, under any behaviour of the store and the provider. *)
Inductive step `{DatetimeLib} `{TextLib} : World -> World -> Prop :=
| step_webhook request now o w :
    step w (snd (whatsapp_reply request now o w))
| step_reminder now o w :
    step w (snd (send_reminder now o w))
| step_follow_up now o w :
    step w (snd (send_follow_up now o w)).

Inductive reachable `{DatetimeLib} `{TextLib} : World -> World -> Prop :=
| reach_refl w : reachable w w
| reach_step w1 w2 w3 : reachable w1 w2 -> step w2 w3 -> reachable w1 w3.

(** *** Concrete inputs for the examples *)

Definition empty_world : World :=
  {| db := []; next_id := 0; trace := []; log := [] |}.

(** A request carrying [text], with the verdict [valid] of the
    validator. *)
Definition request_of (text : string) (valid : bool) : Request :=
  {| form_Body := text; form_From := "whatsapp:+15550100";
     signature_valid := valid;
     request_url := "https://bot.example/whatsapp";
     request_host := "bot.example"; request_path := "/whatsapp";
     header_signature := "c2lnbmF0dXJl"; header_forwarded_proto := "";
     form_text := "ImmutableMultiDict([])";
     values_text := "CombinedMultiDict([])" |}.

(** An authenticated request carrying [text]. *)
Definition inbound (text : string) : Request := request_of text true.

(** [datetime(y, m, d, H, M)] *)
Definition moment (y m d H M : Z) : datetime :=
  match Calendar.make_datetime y m d H M with Some t => t | None => 0%Z end.

(** A document as the date branch builds it: the placeholder name, both
    flags unset. *)
Definition booking (id : nat) (phone what : string) (date : datetime)
    : Appointment :=
  {| _id := id; customer_name := "Customer"; phone_number := phone;
     service := what; appointment_date := date;
     reminder_sent := false; follow_up_sent := false |}.

Definition world_of (docs : list Appointment) : World :=
  {| db := docs; next_id := List.length docs; trace := []; log := [] |}.

(** The store is down. *)
Definition store_down : Oracle :=
  {| mongo_up := fun _ => false; twilio_up := fun _ => true |}.

(** The conversation "haircut", then "2099-01-01 10:00". *)
Definition haircut_conversation : World :=
  let now := moment 2024 1 1 9 0 in
  let w1 := snd (whatsapp_reply (inbound "haircut") now healthy empty_world) in
  snd (whatsapp_reply (inbound "2099-01-01 10:00") now healthy w1).

(* ------------------------------------------------------------------ *)
(** ** The text and calendar functions on known values                  *)
(* ------------------------------------------------------------------ *)

Example lower_mixed : ascii_lower "Hi THERE_9" = "hi there_9".
Proof. reflexivity. Qed.

Example title_words : ascii_title "haircut please, 2x" = "Haircut Please, 2X".
Proof. reflexivity. Qed.

(** "grüße aus berlin": sixteen characters in eighteen bytes. *)
Example str_len_counts_characters :
  let u_umlaut := String "195" (String "188" "") in
  let sharp_s := String "195" (String "159" "") in
  let text := ("gr" ++ u_umlaut ++ sharp_s ++ "e aus berlin")%string in
  str_len text = 16%nat /\ String.length text = 18%nat.
Proof. split; reflexivity. Qed.

Example contains_book : contains "book" "cancel_booking" = true.
Proof. reflexivity. Qed.

Example zfill_7 : zfill 2 7 = "07" /\ zfill 4 2099 = "2099" /\ str_int 0 = "0".
Proof. repeat split. Qed.

Example ordinal_of_epoch : Calendar.ymd2ord 1970 1 1 = 719163%Z.
Proof. reflexivity. Qed.

Example ordinal_round_trip :
  Calendar.ord2ymd (Calendar.ymd2ord 2024 2 29) = (2024, 2, 29)%Z
  /\ Calendar.ord2ymd (Calendar.ymd2ord 2099 12 31) = (2099, 12, 31)%Z
  /\ Calendar.ord2ymd (Calendar.ymd2ord 2000 3 1) = (2000, 3, 1)%Z.
Proof. repeat split. Qed.

Example strptime_canonical :
  option_map str_datetime (strptime "2099-01-01 10:00") = Some "2099-01-01 10:00:00".
Proof. reflexivity. Qed.

Example strptime_short_fields :
  option_map str_datetime (strptime "2099-1-1     1:5") = Some "2099-01-01 01:05:00".
Proof. reflexivity. Qed.

Example strptime_rejects :
  strptime "2099-02-30 10:00" = None /\ strptime "2099-13-01 10:00" = None
  /\ strptime "2099-01-01 24:00" = None /\ strptime "2099-01-01T10:00" = None
  /\ strptime "0000-01-01 10:00" = None /\ strptime "what time is it?" = None.
Proof. repeat split. Qed.

(* ------------------------------------------------------------------ *)
(** ** Text lemmas                                                      *)
(* ------------------------------------------------------------------ *)

Lemma startswith_app (p r : string) : startswith p (p ++ r) = true.
Proof.
  induction p as [|c p IH]; simpl.
  - reflexivity.
  - rewrite Ascii.eqb_refl. exact IH.
Qed.

Lemma startswith_inv (p s : string) :
  startswith p s = true -> exists r, s = (p ++ r)%string.
Proof.
  revert s. induction p as [|c p IH]; intros s H.
  - exists s. reflexivity.
  - destruct s as [|d s]; simpl in H; [discriminate|].
    apply andb_true_iff in H. destruct H as [Hc Hp].
    apply Ascii.eqb_eq in Hc. subst d.
    destruct (IH _ Hp) as [r ->]. exists r. reflexivity.
Qed.

Lemma string_app_assoc (a b c : string) :
  ((a ++ b) ++ c = a ++ (b ++ c))%string.
Proof. induction a as [|x a IH]; simpl; [reflexivity | now rewrite IH]. Qed.

Lemma contains_startswith (needle hay : string) :
  startswith needle hay = true -> contains needle hay = true.
Proof.
  destruct hay; simpl; intros H; [exact H | now rewrite H].
Qed.

Lemma contains_intro (needle before after : string) :
  contains needle (before ++ needle ++ after) = true.
Proof.
  induction before as [|c b IH]; simpl.
  - apply contains_startswith, startswith_app.
  - rewrite IH. apply orb_true_r.
Qed.

Lemma contains_inv (needle hay : string) :
  contains needle hay = true ->
  exists before after, hay = (before ++ needle ++ after)%string.
Proof.
  induction hay as [|c h IH]; simpl; intros H.
  - apply startswith_inv in H. destruct H as [r Hr].
    exists "", r. exact Hr.
  - apply orb_true_iff in H. destruct H as [H | H].
    + apply startswith_inv in H. destruct H as [r Hr].
      exists "", r. exact Hr.
    + destruct (IH H) as (b & a & ->). exists (String c b), a. reflexivity.
Qed.

(** [in] is transitive: a text that contains [b] contains what [b]
    contains. *)
Lemma contains_trans (a b c : string) :
  contains a b = true -> contains b c = true -> contains a c = true.
Proof.
  intros Hab Hbc.
  apply contains_inv in Hab. destruct Hab as (b1 & b2 & ->).
  apply contains_inv in Hbc. destruct Hbc as (c1 & c2 & ->).
  rewrite !string_app_assoc, <- string_app_assoc.
  apply contains_intro.
Qed.

(** Only ASCII text lower-cases to ASCII text under [ascii_lower]. *)
Lemma ascii_lower_preimage (s : string) :
  is_ascii (ascii_lower s) = true -> is_ascii s = true.
Proof.
  induction s as [|c s IH]; simpl; [reflexivity|].
  intros H. apply andb_true_iff in H. destruct H as [Hc Hs].
  rewrite (IH Hs), andb_true_r.
  unfold to_lower in Hc. destruct (is_upper c) eqn:E; [|exact Hc].
  unfold is_upper in E. apply andb_true_iff in E. destruct E as [_ E].
  apply Nat.leb_le in E. apply Nat.ltb_lt. lia.
Qed.

Lemma mentions_contains `{TextLib} (word text : string) :
  is_ascii word = true ->
  mentions word text -> contains word (lower text) = true.
Proof.
  intros Hword (b & m & a & -> & <-).
  destruct (lower_respects_ascii b m a (ascii_lower_preimage m Hword))
    as (b' & a' & ->).
  apply contains_intro.
Qed.

(* ------------------------------------------------------------------ *)
(** ** Running the handler                                              *)
(* ------------------------------------------------------------------ *)

(** Unfolds the monad and the primitive operations, leaving the tests of
    the program and the oracle in place. *)
Ltac exec :=
  cbv beta iota zeta delta
    [whatsapp_reply validate_twilio_request send_interactive_message
     cancel_branch date_branch find_one delete_one insert_one find_many
     update_one mongo messages_create
     bind ret raise try_except logger with_event with_db Exception IsValueError
     negb];
  cbn [db trace log next_id fst snd].

Ltac split_on_oracle :=
  match goal with
  | |- context [mongo_up ?o ?k] => destruct (mongo_up o k) eqn:?
  | |- context [twilio_up ?o ?k] => destruct (twilio_up o k) eqn:?
  end; exec.

Ltac split_on_rules :=
  repeat match goal with
         | |- context [if ?b then _ else _] =>
             lazymatch b with
             | context [contains] => destruct b eqn:?
             | (_ =? _)%nat => destruct b eqn:?
             end; exec
         end;
  try (change (3 <? len greeting_buttons)%Z with false; exec).

Ltac split_on_data :=
  repeat match goal with
         | |- context [match ?x with Some _ => _ | None => _ end] =>
             destruct x eqn:?; exec
         | |- context [if (?a <? ?b)%Z then _ else _] =>
             destruct (a <? b)%Z eqn:?; exec
         end.

Ltac in_list := simpl; repeat first [left; reflexivity | right].

Lemma reaches_date_branch_inv (m : string) :
  reaches_date_branch m = true ->
  contains "hi" m || contains "hello" m = false
  /\ contains "book_now" m || contains "book" m = false
  /\ contains "book_later" m = false
  /\ contains "cancel_booking" m = false
  /\ contains "haircut" m || contains "consultation" m = false
  /\ (str_len m =? 16)%nat = true.
Proof.
  unfold reaches_date_branch. rewrite !andb_true_iff, !negb_true_iff. tauto.
Qed.

Lemma app_one_neq {A} (l : list A) (a : A) : l <> l ++ [a].
Proof.
  intros E. apply (f_equal (@List.length A)) in E.
  rewrite length_app in E. simpl in E. lia.
Qed.

Lemma find_split {A} (p : A -> bool) (l : list A) (a : A) :
  find p l = Some a ->
  exists before after,
    l = before ++ a :: after /\ p a = true
    /\ forall b, In b before -> p b = false.
Proof.
  induction l as [|x l IH]; simpl; [discriminate|].
  destruct (p x) eqn:Hx.
  - intros E. inversion E; subst x. exists [], l. repeat split; auto.
    intros b [].
  - intros E. destruct (IH E) as (before & after & -> & Ha & Hb).
    exists (x :: before), after. repeat split; auto.
    intros b [<- | Hin]; auto.
Qed.

Lemma find_none_iff {A} (p : A -> bool) (l : list A) :
  find p l = None <-> forall a, In a l -> p a = false.
Proof.
  induction l as [|x l IH]; simpl.
  - split; [intros _ a [] | reflexivity].
  - destruct (p x) eqn:Hx.
    + split; [discriminate|]. intros Hall.
      rewrite (Hall x (or_introl eq_refl)) in Hx. discriminate.
    + rewrite IH. split.
      * intros Hall a [<- | Hin]; auto.
      * intros Hall a Hin. apply Hall. now right.
Qed.

Lemma delete_first_split (before after : list Appointment) (a : Appointment) :
  NoDup (map _id (before ++ a :: after)) ->
  delete_first (_id a) (before ++ a :: after) = before ++ after.
Proof.
  induction before as [|x before IH]; simpl; intros Hnd.
  - now rewrite Nat.eqb_refl.
  - inversion Hnd as [|? ? Hnotin Hnd']; subst.
    destruct (_id x =? _id a)%nat eqn:E.
    + apply Nat.eqb_eq in E. exfalso. apply Hnotin. rewrite E.
      rewrite map_app. apply in_or_app. right. now left.
    + now rewrite IH.
Qed.

Lemma delete_first_incl (id : nat) (docs : list Appointment) (a : Appointment) :
  In a (delete_first id docs) -> In a docs.
Proof.
  induction docs as [|x docs IH]; simpl; [tauto|].
  destruct (_id x =? id)%nat; simpl; intuition.
Qed.

(** What a request can do to the collection: nothing, delete one
    document, or append one document, whose service is the empty text. *)
Lemma whatsapp_reply_effect `{DatetimeLib} `{TextLib} request now o w :
  let w' := snd (whatsapp_reply request now o w) in
  (db w' = db w /\ next_id w' = next_id w)
  \/ (exists id, db w' = delete_first id (db w) /\ next_id w' = next_id w)
  \/ (exists d, db w' = db w ++ [booking (next_id w) (form_From request) "" d]
                /\ next_id w' = S (next_id w)).
Proof.
  cbv zeta. unfold whatsapp_reply, validate_twilio_request.
  destruct (signature_valid request); exec.
  2: { left. split; reflexivity. }
  split_on_rules. all: repeat split_on_oracle. all: split_on_data.
  all: repeat split_on_oracle.
  all: first [ left; split; reflexivity
             | right; left; eexists; split; reflexivity
             | right; right; eexists; split; reflexivity ].
Qed.

(* ------------------------------------------------------------------ *)
(** ** The conversation rules                                           *)
(* ------------------------------------------------------------------ *)

(** C3. An authenticated message that mentions "hi" or "hello", in any
    case and with any text around it, makes the handler call the
    dispatcher once, with the greeting and exactly the two buttons Book
    Now and Book Later; the webhook reply itself carries no body, and the
    request makes no store call and leaves the collection as it was. *)
Theorem greeting_offers_both_choices `{DatetimeLib} `{TextLib} :
  forall request now o w,
    signature_valid request = true ->
    mentions "hi" (form_Body request) \/ mentions "hello" (form_Body request) ->
    let r := whatsapp_reply request now o w in
    fst r = Ok None
    /\ trace (snd r)
       = trace w ++ [ {| call := MessagesCreate None (form_From request)
                                   (InteractiveJson greeting_msg greeting_buttons);
                         succeeded := twilio_up o (List.length (trace w)) |} ]
    /\ map reply_title greeting_buttons = ["Book Now"; "Book Later"]
    /\ db (snd r) = db w /\ next_id (snd r) = next_id w.
Proof.
  intros request now o w Hsig Hm r.
  assert (Hc : contains "hi" (lower (form_Body request))
               || contains "hello" (lower (form_Body request)) = true).
  { apply orb_true_iff. destruct Hm as [Hm | Hm]; [left | right];
      now apply mentions_contains. }
  subst r. unfold whatsapp_reply, validate_twilio_request.
  rewrite Hsig. exec. rewrite Hc. exec.
  change (3 <? len greeting_buttons)%Z with false. exec.
  destruct (twilio_up o (List.length (trace w))); exec; auto.
Qed.

Lemma greeting_offers_both_choices_witness :
  signature_valid (inbound "Oh, HELLO there") = true
  /\ mentions "hello" (form_Body (inbound "Oh, HELLO there"))
  /\ fst (whatsapp_reply (inbound "Oh, HELLO there") 0%Z healthy empty_world)
     = Ok None.
Proof.
  assert (Hm : mentions "hello" (form_Body (inbound "Oh, HELLO there"))).
  { exists "Oh, ", "HELLO", " there". split; reflexivity. }
  split; [reflexivity|]. split; [exact Hm|].
  apply (greeting_offers_both_choices (inbound "Oh, HELLO there") 0%Z healthy
           empty_world eq_refl (or_intror Hm)).
Defined.

(** C6 (the code departs from the claim). A message that contains
    "book_later" contains "book", so the booking rule, or the greeting
    rule before it, always wins: the reply of the handler is the prompt
    for a service or the empty greeting reply, never the deferred-booking
    acknowledgement, whose branch cannot be reached.  The collection is
    left as it was. *)
Theorem book_later_never_acknowledged `{DatetimeLib} `{TextLib} :
  forall request now o w,
    signature_valid request = true ->
    contains "book_later" (lower (form_Body request)) = true ->
    let r := whatsapp_reply request now o w in
    (fst r = Ok (Some service_prompt) \/ fst r = Ok None)
    /\ fst r <> Ok (Some book_later_reply)
    /\ db (snd r) = db w.
Proof.
  intros request now o w Hsig Hlater r.
  assert (Hbook : contains "book" (lower (form_Body request)) = true).
  { apply (contains_trans "book" "book_later"); [reflexivity | exact Hlater]. }
  assert (Hrun : (fst r = Ok (Some service_prompt) \/ fst r = Ok None)
                 /\ db (snd r) = db w).
  { subst r. unfold whatsapp_reply, validate_twilio_request.
    rewrite Hsig. exec. rewrite Hbook, orb_true_r.
    destruct (contains "hi" (lower (form_Body request))
              || contains "hello" (lower (form_Body request))); exec.
    - change (3 <? len greeting_buttons)%Z with false. exec.
      split_on_oracle; auto.
    - auto. }
  destruct Hrun as [Hreply Hdb]. repeat split; auto.
  destruct Hreply as [-> | ->]; discriminate.
Qed.

Lemma book_later_never_acknowledged_witness :
  signature_valid (inbound "book_later") = true
  /\ contains "book_later" (lower (form_Body (inbound "book_later"))) = true
  /\ fst (whatsapp_reply (inbound "book_later") 0%Z healthy empty_world)
     <> Ok (Some book_later_reply).
Proof.
  assert (Hc : contains "book_later" (lower (form_Body (inbound "book_later")))
               = true) by reflexivity.
  split; [reflexivity|]. split; [exact Hc|].
  apply (book_later_never_acknowledged (inbound "book_later") 0%Z healthy
           empty_world eq_refl Hc).
Defined.

Example book_later_gets_the_service_prompt :
  fst (whatsapp_reply (inbound "book_later") 0%Z healthy empty_world)
  = Ok (Some service_prompt).
Proof. reflexivity. Qed.

(** C7 (the code departs from the claim). The service chosen in an
    earlier message is held in a variable of that request only.  Every
    document a request adds to the collection has the empty text as its
    service, whatever was said before. *)
Theorem booked_service_is_empty `{DatetimeLib} `{TextLib} :
  forall request now o w a,
    In a (db (snd (whatsapp_reply request now o w))) ->
    In a (db w) \/ service a = "".
Proof.
  intros request now o w a Hin.
  destruct (whatsapp_reply_effect request now o w)
    as [[Hdb _] | [(id & Hdb & _) | (d & Hdb & _)]];
    cbv zeta in Hdb; rewrite Hdb in Hin.
  - now left.
  - left. eapply delete_first_incl. exact Hin.
  - apply in_app_or in Hin. destruct Hin as [Hin | [<- | []]].
    + now left.
    + right. reflexivity.
Qed.

Lemma booked_service_is_empty_witness :
  let a := booking 0 "whatsapp:+15550100" "" (moment 2099 1 1 10 0) in
  db haircut_conversation = [a]
  /\ title (lower "haircut") = "Haircut"
  /\ (In a [] \/ service a = "").
Proof.
  intros a.
  pose (w1 := snd (whatsapp_reply (inbound "haircut") (moment 2024 1 1 9 0)
                     healthy empty_world)).
  assert (Hw1 : db w1 = []) by reflexivity.
  assert (Hin : In a (db (snd (whatsapp_reply (inbound "2099-01-01 10:00")
                                 (moment 2024 1 1 9 0) healthy w1))))
    by (vm_compute; left; reflexivity).
  split; [reflexivity|]. split; [reflexivity|].
  rewrite <- Hw1.
  exact (booked_service_is_empty (inbound "2099-01-01 10:00")
           (moment 2024 1 1 9 0) healthy w1 a Hin).
Defined.

(** [try: ... except Exception: ...] lets nothing out, whatever the body
    raises, as long as the handler itself returns. *)
Lemma try_except_Exception_returns {A} (body : M A) (handler : Exn -> M A) o w :
  (forall e w1, exists a w2, handler e o w1 = (Ok a, w2)) ->
  exists a w', try_except body Exception handler o w = (Ok a, w').
Proof.
  intros Hh. unfold try_except, Exception.
  destruct (body o w) as [[a | e] w1].
  - exists a, w1. reflexivity.
  - apply Hh.
Qed.

(** C9. An authenticated request never raises: the handler returns a
    response.  When a store call made for the request fails, the failure
    is caught by the outer handler, an error naming the sender is logged
    and the response is the generic apology, which asks to try again
    later. *)
Theorem handler_never_raises `{DatetimeLib} `{TextLib} :
  forall request now o w,
    signature_valid request = true ->
    let r := whatsapp_reply request now o w in
    exists response evs logs,
      fst r = Ok response
      /\ trace (snd r) = trace w ++ evs
      /\ log (snd r) = log w ++ logs
      /\ ((exists e, In e evs /\ is_store_call (call e) = true
                     /\ succeeded e = false) ->
          response
          = Some "An error occurred while processing your request. Please try again later."
          /\ In {| level := ERROR;
                   message := ("Error processing message from "
                               ++ form_From request ++ ": "
                               ++ str_exn PyMongoError)%string |} logs).
Proof.
  intros request now o w Hsig r. subst r.
  unfold whatsapp_reply, validate_twilio_request. rewrite Hsig. exec.
  split_on_rules. all: repeat split_on_oracle. all: split_on_data.
  all: repeat split_on_oracle.
  all: do 3 eexists; rewrite <- ?app_assoc;
       (split; [reflexivity|]);
       (split; [first [reflexivity | symmetry; apply app_nil_r]|]);
       (split; [first [reflexivity | symmetry; apply app_nil_r]|]).
  all: intros (e & Hin & Hs & Hf); simpl in Hin;
       repeat match goal with
              | Hin : _ \/ _ |- _ => destruct Hin as [<- | Hin]
              | Hin : False |- _ => destruct Hin
              end; simpl in Hs, Hf; try discriminate.
  all: try congruence.
  all: split; [reflexivity | in_list].
Qed.

Lemma handler_never_raises_witness :
  signature_valid (inbound "2099-01-01 10:00") = true
  /\ whatsapp_reply (inbound "2099-01-01 10:00") 0%Z store_down empty_world
     = (Ok (Some "An error occurred while processing your request. Please try again later."),
        snd (whatsapp_reply (inbound "2099-01-01 10:00") 0%Z store_down
               empty_world))
  /\ exists response, 
       fst (whatsapp_reply (inbound "2099-01-01 10:00") 0%Z store_down
              empty_world) = Ok response.
Proof.
  split; [reflexivity|]. split; [reflexivity|].
  destruct (handler_never_raises (inbound "2099-01-01 10:00") 0%Z store_down
              empty_world eq_refl) as (response & _ & _ & Hr & _).
  exists response. exact Hr.
Defined.

(** C1 (amended). For an authenticated message that reaches the date and
    time rule: an appointment is appended to the collection if and only
    if the text parses, the timestamp is not earlier than the current
    time (a timestamp equal to the current time is accepted) and the
    store accepts the insertion.  On success the document carries the
    sender, the parsed date as the store keeps it and both flags unset,
    and the reply echoes the date; when the text does not parse or the
    timestamp is earlier than now, no store call is made, the collection
    is left as it was and the reply is the format and validity error;
    when the store refuses the insertion, the collection is left as it
    was and the reply is the generic apology. *)
Theorem date_entry_books_iff_not_past `{DatetimeLib} `{TextLib} :
  forall request now o w,
    signature_valid request = true ->
    reaches_date_branch (lower (form_Body request)) = true ->
    let incoming_msg := lower (form_Body request) in
    let accepted := mongo_up o (List.length (trace w)) in
    let r := whatsapp_reply request now o w in
    ((exists a, db (snd r) = db w ++ [a])
     <-> (exists d, strptime incoming_msg = Some d /\ (now <= d)%Z
                    /\ accepted = true))
    /\ (forall d, strptime incoming_msg = Some d -> (now <= d)%Z ->
          accepted = true ->
          db (snd r)
          = db w ++ [ {| _id := next_id w;
                         customer_name := "Customer";
                         phone_number := form_From request;
                         service := "";
                         appointment_date := bson_datetime d;
                         reminder_sent := false;
                         follow_up_sent := false |} ]
          /\ fst r
             = Ok (Some ("Your  is scheduled for " ++ str_datetime d
                         ++ ". You will receive a reminder 24 hours before the appointment.")%string))
    /\ ((strptime incoming_msg = None
         \/ exists d, strptime incoming_msg = Some d /\ (d < now)%Z) ->
        db (snd r) = db w
        /\ trace (snd r) = trace w
        /\ fst r
           = Ok (Some "Invalid date format or date is in the past. Please use YYYY-MM-DD HH:MM for a future date and time."))
    /\ (forall d, strptime incoming_msg = Some d -> (now <= d)%Z ->
          accepted = false ->
          db (snd r) = db w
          /\ fst r
             = Ok (Some "An error occurred while processing your request. Please try again later.")).
Proof.
  intros request now o w Hsig Hreach incoming_msg accepted r.
  apply reaches_date_branch_inv in Hreach.
  destruct Hreach as (H1 & H2 & H3 & H4 & H5 & H6).
  assert (Hrun :
    match strptime incoming_msg with
    | Some d =>
        if (d <? now)%Z
        then db (snd r) = db w /\ trace (snd r) = trace w
             /\ fst r = Ok (Some invalid_date_reply)
        else if accepted
        then db (snd r)
             = db w ++ [booking (next_id w) (form_From request) ""
                          (bson_datetime d)]
             /\ fst r = Ok (Some (scheduled_reply "" d))
        else db (snd r) = db w /\ fst r = Ok (Some apology_reply)
    | None => db (snd r) = db w /\ trace (snd r) = trace w
              /\ fst r = Ok (Some invalid_date_reply)
    end).
  { subst r incoming_msg accepted.
    unfold whatsapp_reply, validate_twilio_request.
    rewrite Hsig. exec. rewrite H1, H2, H3, H4, H5, H6. exec.
    destruct (strptime (lower (form_Body request))) as [d|]; exec.
    - destruct (d <? now)%Z; exec.
      + repeat split; reflexivity.
      + destruct (mongo_up o (List.length (trace w))); exec.
        * split; reflexivity.
        * split; reflexivity.
    - repeat split; reflexivity. }
  destruct (strptime incoming_msg) as [d|] eqn:Hparse.
  - destruct (d <? now)%Z eqn:Hcmp.
    + apply Z.ltb_lt in Hcmp. destruct Hrun as (Hdb & Htr & Hr).
      split; [|split; [|split]].
      * split.
        -- intros [a Ha]. rewrite Hdb in Ha. now apply app_one_neq in Ha.
        -- intros (d' & Hd' & Hle & _). inversion Hd'; subst d'. lia.
      * intros d' Hd' Hle. inversion Hd'; subst d'. lia.
      * intros _. repeat split; assumption.
      * intros d' Hd' Hle. inversion Hd'; subst d'. lia.
    + apply Z.ltb_ge in Hcmp. destruct accepted eqn:Hup.
      * destruct Hrun as [Hdb Hr]. split; [|split; [|split]].
        -- split.
           ++ intros _. exists d. repeat split; [exact Hcmp].
           ++ intros _. eexists. exact Hdb.
        -- intros d' Hd' _ _. inversion Hd'; subst d'.
           split; [exact Hdb | exact Hr].
        -- intros [Hn | (d' & Hd' & Hlt)]; [discriminate|].
           inversion Hd'; subst d'. lia.
        -- intros d' _ _ Hacc. discriminate.
      * destruct Hrun as [Hdb Hr]. split; [|split; [|split]].
        -- split.
           ++ intros [a Ha]. rewrite Hdb in Ha. now apply app_one_neq in Ha.
           ++ intros (d' & _ & _ & Hacc). discriminate.
        -- intros d' _ _ Hacc. discriminate.
        -- intros [Hn | (d' & Hd' & Hlt)]; [discriminate|].
           inversion Hd'; subst d'. lia.
        -- intros d' _ _ _. split; [exact Hdb | exact Hr].
  - destruct Hrun as (Hdb & Htr & Hr). split; [|split; [|split]].
    + split.
      * intros [a Ha]. rewrite Hdb in Ha. now apply app_one_neq in Ha.
      * intros (d' & Hd' & _). discriminate.
    + intros d' Hd'. discriminate.
    + intros _. repeat split; assumption.
    + intros d' Hd'. discriminate.
Qed.

(** The date and time rule counts characters, not bytes.  "grüße aus
    berlin" has sixteen characters in eighteen bytes: it reaches the rule
    and gets the format error.  "für dich, danke" has sixteen bytes in
    fifteen characters: it does not, and gets the help text. *)
Example sixteen_characters_not_sixteen_bytes :
  let u_umlaut := String "195" (String "188" "") in
  let sharp_s := String "195" (String "159" "") in
  let gruesse := ("gr" ++ u_umlaut ++ sharp_s ++ "e aus berlin")%string in
  let danke := ("f" ++ u_umlaut ++ "r dich, danke")%string in
  (String.length gruesse = 18%nat
   /\ reaches_date_branch (lower gruesse) = true
   /\ fst (whatsapp_reply (inbound gruesse) 0%Z healthy empty_world)
      = Ok (Some invalid_date_reply))
  /\ (String.length danke = 16%nat
      /\ reaches_date_branch (lower danke) = false
      /\ fst (whatsapp_reply (inbound danke) 0%Z healthy empty_world)
         = Ok (Some fallback_reply)).
Proof. cbv zeta. repeat split; vm_compute; reflexivity. Qed.

Lemma date_entry_books_iff_not_past_witness :
  let gruesse :=
    ("gr" ++ String "195" (String "188" "") ++ String "195" (String "159" "")
     ++ "e aus berlin")%string in
  (signature_valid (inbound "2099-01-01 10:00") = true
   /\ reaches_date_branch (lower (form_Body (inbound "2099-01-01 10:00"))) = true
   /\ db (snd (whatsapp_reply (inbound "2099-01-01 10:00")
                 (moment 2024 1 1 9 0) healthy empty_world))
      = [booking 0 "whatsapp:+15550100" "" (moment 2099 1 1 10 0)])
  /\ (signature_valid (inbound gruesse) = true
      /\ String.length gruesse = 18%nat
      /\ reaches_date_branch (lower (form_Body (inbound gruesse))) = true
      /\ strptime (lower (form_Body (inbound gruesse))) = None
      /\ db (snd (whatsapp_reply (inbound gruesse) (moment 2024 1 1 9 0)
                    healthy empty_world)) = []).
Proof.
  intros gruesse. split.
  - assert (Hreach : reaches_date_branch
                       (lower (form_Body (inbound "2099-01-01 10:00"))) = true)
      by reflexivity.
    assert (Hparse : strptime (lower (form_Body (inbound "2099-01-01 10:00")))
                     = Some (moment 2099 1 1 10 0)) by reflexivity.
    assert (Hle : (moment 2024 1 1 9 0 <= moment 2099 1 1 10 0)%Z)
      by (vm_compute; discriminate).
    split; [reflexivity|]. split; [exact Hreach|].
    destruct (date_entry_books_iff_not_past (inbound "2099-01-01 10:00")
                (moment 2024 1 1 9 0) healthy empty_world eq_refl Hreach)
      as (_ & Hbooked & _ & _).
    exact (proj1 (Hbooked (moment 2099 1 1 10 0) Hparse Hle eq_refl)).
  - assert (Hreach : reaches_date_branch (lower (form_Body (inbound gruesse)))
                     = true) by (vm_compute; reflexivity).
    assert (Hparse : strptime (lower (form_Body (inbound gruesse))) = None)
      by (vm_compute; reflexivity).
    split; [reflexivity|]. split; [reflexivity|]. split; [exact Hreach|].
    split; [exact Hparse|].
    destruct (date_entry_books_iff_not_past (inbound gruesse)
                (moment 2024 1 1 9 0) healthy empty_world eq_refl Hreach)
      as (_ & _ & Hrefused & _).
    exact (proj1 (Hrefused (or_introl Hparse))).
Defined.

(** C1 as stated fails in two ways.  The text "2099-01-01 10:00", handled
    at the very microsecond it denotes, is booked, although its timestamp
    is not strictly later than the current time.  And the same text,
    handled in 2024 while the store is down, parses and lies in the
    future, yet no appointment is created. *)
Lemma date_entry_departs_from_strictly_future :
  let request := inbound "2099-01-01 10:00" in
  let that_minute := moment 2099 1 1 10 0 in
  let long_before := moment 2024 1 1 9 0 in
  signature_valid request = true
  /\ reaches_date_branch (lower (form_Body request)) = true
  /\ (let r := whatsapp_reply request that_minute healthy empty_world in
      ~ ((exists a, db (snd r) = db empty_world ++ [a])
         <-> (exists d, strptime (lower (form_Body request)) = Some d
                        /\ (that_minute < d)%Z)))
  /\ (let r := whatsapp_reply request long_before store_down empty_world in
      ~ ((exists a, db (snd r) = db empty_world ++ [a])
         <-> (exists d, strptime (lower (form_Body request)) = Some d
                        /\ (long_before < d)%Z))).
Proof.
  cbv zeta. split; [reflexivity|]. split; [reflexivity|]. split.
  - intros [Hcreated _].
    destruct Hcreated as (d & Hd & Hlt).
    + eexists. vm_compute. reflexivity.
    + vm_compute in Hd. inversion Hd; subst d. vm_compute in Hlt. discriminate.
  - intros [_ Hcreated].
    destruct Hcreated as (a & Ha).
    + exists (moment 2099 1 1 10 0). split; vm_compute; reflexivity.
    + vm_compute in Ha. discriminate.
Qed.

(** C2 (the code departs from the claim). A message that contains
    "cancel_booking" contains "book", so the booking rule, or the greeting
    rule before it, always wins: the reply is the prompt for a service or
    the empty greeting reply, never the confirmation of a cancellation
    and never the notice that there is nothing to cancel.  No store call
    is made, and the collection, with every appointment of the sender, is
    left as it was. *)
Theorem cancel_booking_never_cancels `{DatetimeLib} `{TextLib} :
  forall request now o w,
    signature_valid request = true ->
    contains "cancel_booking" (lower (form_Body request)) = true ->
    let r := whatsapp_reply request now o w in
    (fst r = Ok (Some "What service would you like to book? (e.g., Haircut, Consultation, etc.)")
     \/ fst r = Ok None)
    /\ (forall a, fst r <> Ok (Some (cancelled_reply a)))
    /\ fst r <> Ok (Some "You don't have any upcoming appointments to cancel.")
    /\ db (snd r) = db w
    /\ exists evs, trace (snd r) = trace w ++ evs
                   /\ Forall (fun e => is_store_call (call e) = false) evs.
Proof.
  intros request now o w Hsig Hcancel r.
  assert (Hbook : contains "book" (lower (form_Body request)) = true).
  { apply (contains_trans "book" "cancel_booking");
      [reflexivity | exact Hcancel]. }
  assert (Hrun : (fst r = Ok (Some service_prompt) \/ fst r = Ok None)
                 /\ db (snd r) = db w
                 /\ exists evs, trace (snd r) = trace w ++ evs
                      /\ Forall (fun e => is_store_call (call e) = false) evs).
  { subst r. unfold whatsapp_reply, validate_twilio_request.
    rewrite Hsig. exec. rewrite Hbook, orb_true_r.
    destruct (contains "hi" (lower (form_Body request))
              || contains "hello" (lower (form_Body request))); exec.
    - change (3 <? len greeting_buttons)%Z with false. exec.
      destruct (twilio_up o (List.length (trace w))); exec.
      all: split; [right; reflexivity|]; split; [reflexivity|].
      all: eexists; split; [reflexivity|].
      all: constructor; [reflexivity | constructor].
    - split; [left; reflexivity|]. split; [reflexivity|].
      exists []. split; [symmetry; apply app_nil_r | constructor]. }
  destruct Hrun as (Hreply & Hdb & Hevs).
  split; [exact Hreply|]. split; [|split; [|split; [exact Hdb | exact Hevs]]].
  - intros a. unfold cancelled_reply.
    destruct Hreply as [-> | ->]; discriminate.
  - destruct Hreply as [-> | ->]; discriminate.
Qed.

Lemma cancel_booking_never_cancels_witness :
  let phone := "whatsapp:+15550100" in
  let now := moment 2099 1 1 10 0 in
  let near := booking 0 phone "Haircut" (moment 2099 1 2 10 0) in
  let r := whatsapp_reply (inbound "cancel_booking") now healthy
             (world_of [near]) in
  signature_valid (inbound "cancel_booking") = true
  /\ contains "cancel_booking" (lower (form_Body (inbound "cancel_booking")))
     = true
  /\ form_From (inbound "cancel_booking") = phone
  /\ upcoming_for phone now near = true
  /\ db (snd r) = [near].
Proof.
  intros phone now near r.
  assert (Hc : contains "cancel_booking"
                 (lower (form_Body (inbound "cancel_booking"))) = true)
    by reflexivity.
  split; [reflexivity|]. split; [exact Hc|]. split; [reflexivity|].
  split; [vm_compute; reflexivity|].
  destruct (cancel_booking_never_cancels (inbound "cancel_booking") now healthy
              (world_of [near]) eq_refl Hc) as (_ & _ & _ & Hdb & _).
  exact Hdb.
Defined.

(** The cancellation branch taken alone, with a store that answers and
    distinct document keys: if the sender has an appointment dated at or
    after the current time, to the millisecond, the branch takes the first
    such document in store order, removes exactly that document and no
    other, and the reply names its service and date; if the sender has
    none, the collection is left as it was and the reply says there is no
    upcoming appointment to cancel. *)
Lemma cancel_branch_deletes_first_upcoming `{DatetimeLib} :
  forall sender now o w,
    store_reliable o ->
    NoDup (map _id (db w)) ->
    let r := cancel_branch sender now o w in
    ((exists a, In a (db w) /\ upcoming_for sender now a = true) ->
     exists before a after,
       db w = before ++ a :: after
       /\ upcoming_for sender now a = true
       /\ (forall b, In b before -> upcoming_for sender now b = false)
       /\ db (snd r) = before ++ after
       /\ fst r = Ok (Some (cancelled_reply a)))
    /\ ((forall a, In a (db w) -> upcoming_for sender now a = false) ->
        db (snd r) = db w /\ fst r = Ok (Some nothing_to_cancel)).
Proof.
  intros sender now o w Hrel Hnd r. subst r.
  unfold cancel_branch. exec. rewrite Hrel. exec.
  destruct (find (upcoming_for sender now) (db w)) as [a|] eqn:Hfind; exec.
  - rewrite Hrel. exec.
    destruct (find_split _ _ _ Hfind) as (before & after & Hdb & Ha & Hb).
    split.
    + intros _. exists before, a, after.
      repeat split; auto.
      rewrite Hdb. apply delete_first_split. now rewrite <- Hdb.
    + intros Hnone. rewrite Hnone in Ha; [discriminate|].
      rewrite Hdb. apply in_or_app. right. now left.
  - split.
    + intros (a & Hin & Ha).
      rewrite (proj1 (find_none_iff _ _) Hfind a Hin) in Ha. discriminate.
    + intros _. split; reflexivity.
Qed.

(** The message "cancel_booking" gets the prompt for a service while the
    sender's future appointment stays in the collection; and the branch
    itself, run on a collection holding a far appointment before a near
    one, deletes the far one. *)
Example cancel_booking_keeps_the_appointment :
  let phone := "whatsapp:+15550100" in
  let now := moment 2099 1 1 10 0 in
  let far := booking 0 phone "Haircut" (moment 2099 6 1 10 0) in
  let near := booking 1 phone "Haircut" (moment 2099 1 2 10 0) in
  (let r := whatsapp_reply (inbound "cancel_booking") now healthy
              (world_of [near]) in
   contains "cancel_booking" (lower (form_Body (inbound "cancel_booking"))) = true
   /\ upcoming_for phone now near = true
   /\ db (snd r) = [near]
   /\ fst r = Ok (Some service_prompt))
  /\ (let r := cancel_branch phone now healthy (world_of [far; near]) in
      upcoming_for phone now far = true
      /\ upcoming_for phone now near = true
      /\ (appointment_date near < appointment_date far)%Z
      /\ db (snd r) = [near]
      /\ fst r = Ok (Some (cancelled_reply far))).
Proof.
  cbv zeta. repeat split; vm_compute; reflexivity.
Qed.

(** Closed goals: split the conjunctions, then evaluate. *)
Ltac by_computation :=
  repeat match goal with |- _ /\ _ => split end; vm_compute; reflexivity.

(* ------------------------------------------------------------------ *)
(** ** The sweeps                                                       *)
(* ------------------------------------------------------------------ *)

Lemma send_reminder_is_sweep `{DatetimeLib} (now : datetime) :
  send_reminder now
  = sweep "Running reminder job." (now + hours 23)%Z (now + hours 25)%Z
      ReminderSent reminder_text "Sent reminder to "
      "Failed to send reminder to ".
Proof. reflexivity. Qed.

Lemma send_follow_up_is_sweep `{DatetimeLib} (now : datetime) :
  send_follow_up now
  = sweep "Running follow-up job." (now - hours 24)%Z now
      FollowUpSent follow_up_text "Sent follow-up to "
      "Failed to send follow-up to ".
Proof. reflexivity. Qed.

Lemma set_flag_id (f : Flag) (a : Appointment) : _id (set_flag f a) = _id a.
Proof. destruct f; reflexivity. Qed.

Lemma set_flag_twice (f : Flag) (a : Appointment) :
  set_flag f (set_flag f a) = set_flag f a.
Proof. destruct f; reflexivity. Qed.

Lemma map_keeps_ids (g : Appointment -> Appointment) (docs : list Appointment) :
  (forall a, _id (g a) = _id a) -> map _id (map g docs) = map _id docs.
Proof.
  intros Hg. rewrite map_map. apply map_ext. exact Hg.
Qed.

(** With distinct keys, updating the first document of key [id] is
    updating every document of key [id]. *)
Lemma update_first_map (id : nat) (f : Flag) (docs : list Appointment) :
  NoDup (map _id docs) ->
  update_first id f docs
  = map (fun a => if (_id a =? id)%nat then set_flag f a else a) docs.
Proof.
  induction docs as [|x docs IH]; simpl; intros Hnd; [reflexivity|].
  inversion Hnd as [|? ? Hnotin Hnd']; subst.
  destruct (_id x =? id)%nat eqn:E.
  - f_equal. apply Nat.eqb_eq in E. subst id.
    clear IH Hnd Hnd'. induction docs as [|y docs IH]; [reflexivity|].
    simpl in *. destruct (_id y =? _id x)%nat eqn:E.
    + apply Nat.eqb_eq in E. exfalso. apply Hnotin. now left.
    + f_equal. apply IH. intros Hin. apply Hnotin. now right.
  - f_equal. now apply IH.
Qed.

Lemma errors_app (l1 l2 : list LogRecord) :
  errors (l1 ++ l2) = (errors l1 + errors l2)%nat.
Proof. unfold errors. now rewrite filter_app, length_app. Qed.

Ltac exec_sweep :=
  cbv beta iota zeta delta
    [sweep notify find_many update_one mongo messages_create
     bind ret raise try_except logger with_event with_db Exception];
  cbn [db trace log next_id fst snd].

(** One iteration of the loop. *)
Lemma notify_run `{DatetimeLib} f text sent failed a o w :
  exists d u logs w',
    notify f text sent failed a o w = (Ok tt, w')
    /\ trace w' = trace w ++ record_events f text a d u
    /\ db w' = (if d && u then update_first (_id a) f (db w) else db w)
    /\ next_id w' = next_id w
    /\ log w' = log w ++ logs
    /\ errors logs = (if d && u then 0 else 1)%nat.
Proof.
  unfold notify, messages_create. exec_sweep.
  destruct (twilio_up o (List.length (trace w))) eqn:Hd; exec_sweep.
  - match goal with
    | |- context [mongo_up ?o ?k] => destruct (mongo_up o k) eqn:Hu
    end; exec_sweep.
    + exists true, true. do 2 eexists. rewrite <- ?app_assoc.
      repeat split; reflexivity.
    + exists true, false. do 2 eexists. rewrite <- ?app_assoc.
      repeat split; reflexivity.
  - exists false, false. do 2 eexists. repeat split; reflexivity.
Qed.

Lemma flagged_cons a d u runs id :
  flagged ((a, (d, u)) :: runs) id
  = ((_id a =? id)%nat && d && u) || flagged runs id.
Proof. reflexivity. Qed.

(** The loop, over any list of records. *)
Lemma notify_all_run `{DatetimeLib} f text sent failed :
  forall l o w,
    NoDup (map _id (db w)) ->
    exists outcomes logs w',
      for_each l (notify f text sent failed) o w = (Ok tt, w')
      /\ List.length outcomes = List.length l
      /\ trace w' = trace w ++ sweep_events f text (combine l outcomes)
      /\ db w' = map (fun x => if flagged (combine l outcomes) (_id x)
                               then set_flag f x else x) (db w)
      /\ next_id w' = next_id w
      /\ log w' = log w ++ logs
      /\ errors logs
         = List.length (filter (fun '(d, u) => negb (d && u)) outcomes).
Proof.
  induction l as [|a l IH]; intros o w Hnd.
  - exists [], [], w. simpl. unfold ret.
    repeat split; try (now rewrite app_nil_r).
    symmetry. erewrite map_ext; [apply map_id | reflexivity].
  - destruct (notify_run f text sent failed a o w)
      as (d & u & logs1 & w1 & Hrun & Htr & Hdb & Hnext & Hlog & Herr).
    assert (Hdb1 : db w1 = map (fun x => if (_id a =? _id x)%nat && d && u
                                         then set_flag f x else x) (db w)).
    { rewrite Hdb. destruct (d && u) eqn:Hdu.
      - rewrite update_first_map by exact Hnd. apply map_ext. intros x.
        rewrite <- andb_assoc, Hdu, andb_true_r, Nat.eqb_sym. reflexivity.
      - erewrite map_ext; [symmetry; apply map_id|]. intros x. cbv beta.
        now rewrite <- andb_assoc, Hdu, andb_false_r. }
    assert (Hnd1 : NoDup (map _id (db w1))).
    { rewrite Hdb1, map_keeps_ids; [exact Hnd|].
      intros x. destruct ((_id a =? _id x)%nat && d && u);
        [apply set_flag_id | reflexivity]. }
    destruct (IH o w1 Hnd1)
      as (outs & logs2 & w' & Hrest & Hlen & Htr' & Hdb' & Hnext' & Hlog' & Herr').
    exists ((d, u) :: outs), (logs1 ++ logs2), w'.
    split; [|split; [|split; [|split; [|split; [|split]]]]].
    + cbn [for_each]. unfold bind at 1. rewrite Hrun. exact Hrest.
    + simpl. now rewrite Hlen.
    + rewrite Htr', Htr, <- app_assoc. reflexivity.
    + rewrite Hdb', Hdb1, map_map. apply map_ext. intros x.
      cbn [combine]. rewrite flagged_cons.
      destruct ((_id a =? _id x)%nat && d && u) eqn:E; cbn [orb].
      * rewrite set_flag_id.
        destruct (flagged (combine l outs) (_id x));
          [apply set_flag_twice | reflexivity].
      * reflexivity.
    + congruence.
    + rewrite Hlog', Hlog, <- app_assoc. reflexivity.
    + rewrite errors_app, Herr, Herr'. cbn [filter].
      destruct (d && u); reflexivity.
Qed.

Lemma in_window_spec lo hi f a :
  in_window lo hi f a = true
  <-> (bson_datetime lo <= bson_datetime (appointment_date a)
       <= bson_datetime hi)%Z
      /\ get_flag f a = false.
Proof.
  unfold in_window. rewrite !andb_true_iff, negb_true_iff, !Z.leb_le. tauto.
Qed.

(** Cutting down to the millisecond: never above, and less than a
    millisecond below. *)
Lemma bson_datetime_bounds (d : datetime) :
  (bson_datetime d <= d < bson_datetime d + 1000)%Z.
Proof.
  unfold bson_datetime.
  pose proof (Z.div_mod d 1000 ltac:(lia)).
  pose proof (Z.mod_pos_bound d 1000 ltac:(lia)). lia.
Qed.

Lemma bson_datetime_mono (d e : datetime) :
  (d <= e)%Z -> (bson_datetime d <= bson_datetime e)%Z.
Proof.
  intros Hle. unfold bson_datetime.
  apply Z.mul_le_mono_nonneg_r; [lia|]. apply Z.div_le_mono; lia.
Qed.

(** A whole number of milliseconds is at most [hi] exactly when it is at
    most [hi] cut down to the millisecond. *)
Lemma bson_datetime_upper (d hi : datetime) :
  bson_datetime d = d ->
  ((d <= bson_datetime hi)%Z <-> (d <= hi)%Z).
Proof.
  intros Hd. split; intros Hle.
  - pose proof (bson_datetime_bounds hi). lia.
  - rewrite <- Hd. now apply bson_datetime_mono.
Qed.

Lemma set_flag_raises (f : Flag) (a : Appointment) :
  flag_raised f a (set_flag f a).
Proof. destruct f; repeat split. Qed.

(** A tick of a sweep whose query is answered. *)
Lemma sweep_run `{DatetimeLib} start lo hi f text sent failed o w :
  NoDup (map _id (db w)) ->
  mongo_up o (List.length (trace w)) = true ->
  sweep_outcome f lo hi text w (sweep start lo hi f text sent failed o w).
Proof.
  intros Hnd Hup. unfold sweep_outcome. split; [|split].
  - intros a. rewrite filter_In, in_window_spec. tauto.
  - intros a Hms. rewrite filter_In, in_window_spec, Hms.
    rewrite (bson_datetime_upper _ hi Hms). tauto.
  - unfold sweep, find_many, mongo. 
    cbv beta iota zeta delta [bind logger]. cbn [db trace log next_id].
    rewrite Hup.
    set (w0 := with_db _ _).
    destruct (notify_all_run f text sent failed
                (filter (in_window lo hi f) (db w)) o w0 Hnd)
      as (outs & logs & w' & Hrun & Hlen & Htr & Hdb & Hnext & Hlog & Herr).
    rewrite Hrun. cbn [fst snd].
    exists outs, ({| level := INFO; message := start |} :: logs).
    subst w0. cbn [db trace log next_id with_db with_event] in *.
    rewrite Htr, Hlog, <- !app_assoc.
    repeat split; auto.
Qed.

(** A tick of a sweep whose query fails: the job raises at once. *)
Lemma sweep_query_fails `{DatetimeLib} start lo hi f text sent failed o w :
  mongo_up o (List.length (trace w)) = false ->
  let r := sweep start lo hi f text sent failed o w in
  fst r = Raise PyMongoError
  /\ trace (snd r) = trace w ++ [{| call := Find lo hi f; succeeded := false |}]
  /\ db (snd r) = db w /\ next_id (snd r) = next_id w.
Proof.
  intros Hdown. cbv zeta. unfold sweep. exec_sweep. rewrite Hdown.
  repeat split; reflexivity.
Qed.




(** The provider refuses the first message of a tick and accepts the
    second: the first record keeps its flag unset, the second gets it, and
    one error is logged. *)
Example reminder_sweep_survives_a_failed_dispatch :
  let first := booking 0 "whatsapp:+15550100" "" (moment 2099 1 2 10 0) in
  let second := booking 1 "whatsapp:+15550111" "" (moment 2099 1 2 11 0) in
  let flaky := {| mongo_up := fun _ => true;
                  twilio_up := fun k => negb (k =? 1)%nat |} in
  let r := send_reminder (moment 2099 1 1 10 30) flaky
             (world_of [first; second]) in
  fst r = Ok tt
  /\ db (snd r) = [first; set_flag ReminderSent second]
  /\ map succeeded (trace (snd r)) = [true; false; true; true]
  /\ errors (log (snd r)) = 1%nat.
Proof. cbv zeta. by_computation. Qed.

Lemma delivered_app (e1 e2 : list Event) :
  delivered (e1 ++ e2) = delivered e1 ++ delivered e2.
Proof.
  induction e1 as [|[c ok] e1 IH]; [reflexivity|].
  destruct c as [| | | | |[id|] to p]; simpl; try exact IH.
  destruct ok; simpl; now rewrite IH.
Qed.

Lemma delivered_sweep_events f text runs :
  delivered (sweep_events f text runs)
  = map (fun r => _id (fst r)) (filter (fun r => fst (snd r)) runs).
Proof.
  induction runs as [|[a [d u]] runs IH]; [reflexivity|].
  unfold sweep_events in *. cbn [map List.concat]. rewrite delivered_app, IH.
  destruct d; reflexivity.
Qed.

Lemma in_delivered_sweep f text (l : list Appointment) outs id :
  In id (delivered (sweep_events f text (combine l outs))) ->
  exists a, In a l /\ _id a = id.
Proof.
  rewrite delivered_sweep_events, in_map_iff.
  intros ([a du] & Hid & Hin). apply filter_In in Hin. destruct Hin as [Hin _].
  apply in_combine_l in Hin. exists a. split; [exact Hin | exact Hid].
Qed.

Lemma NoDup_delivered_sweep f text (l : list Appointment) :
  NoDup (map _id l) ->
  forall outs, NoDup (delivered (sweep_events f text (combine l outs))).
Proof.
  induction l as [|a l IH]; intros Hnd outs.
  - constructor.
  - destruct outs as [|[d u] outs]; [constructor|].
    inversion Hnd as [|? ? Hnotin Hnd']; subst.
    specialize (IH Hnd' outs).
    rewrite delivered_sweep_events in *. cbn [combine filter fst snd].
    destruct d; cbn [map fst]; [|exact IH].
    constructor; [|exact IH].
    intros Hin. apply Hnotin.
    rewrite <- delivered_sweep_events with (f := f) (text := text) in Hin.
    apply in_delivered_sweep in Hin. destruct Hin as (b & Hb & <-).
    now apply in_map.
Qed.

Lemma NoDup_filter_ids (p : Appointment -> bool) (docs : list Appointment) :
  NoDup (map _id docs) -> NoDup (map _id (filter p docs)).
Proof.
  induction docs as [|x docs IH]; simpl; intros Hnd; [constructor|].
  inversion Hnd as [|? ? Hnotin Hnd']; subst.
  destruct (p x); simpl; [constructor|]; auto.
  intros Hin. apply Hnotin. apply in_map_iff in Hin.
  destruct Hin as (y & Hy & Hin). apply filter_In in Hin.
  apply in_map_iff. exists y. tauto.
Qed.

(** What any tick of a sweep delivers: at most one message per record,
    and only for records of the collection whose flag was unset. *)
Lemma sweep_deliveries `{DatetimeLib} start lo hi f text sent failed o w :
  NoDup (map _id (db w)) ->
  let r := sweep start lo hi f text sent failed o w in
  exists evs,
    trace (snd r) = trace w ++ evs
    /\ NoDup (delivered evs)
    /\ (forall id, In id (delivered evs) ->
          exists a, In a (db w) /\ _id a = id /\ get_flag f a = false)
    /\ map _id (db (snd r)) = map _id (db w).
Proof.
  intros Hnd r. subst r.
  destruct (mongo_up o (List.length (trace w))) eqn:Hup.
  - destruct (sweep_run start lo hi f text sent failed o w Hnd Hup)
      as (Hsel & _ & outs & logs & Hlen & _ & Htr & Hdb & _).
    eexists. split; [exact Htr|]. cbn [delivered]. split; [|split].
    + apply NoDup_delivered_sweep. now apply NoDup_filter_ids.
    + intros id Hin. apply in_delivered_sweep in Hin.
      destruct Hin as (a & Ha & Hid). apply Hsel in Ha.
      exists a. tauto.
    + rewrite Hdb. apply map_keeps_ids. intros a.
      destruct (flagged _ _); [apply set_flag_id | reflexivity].
  - destruct (sweep_query_fails start lo hi f text sent failed o w Hup)
      as (_ & Htr & Hdb & _).
    eexists. split; [exact Htr|]. cbn [delivered]. split; [constructor|].
    split; [intros id [] | now rewrite Hdb].
Qed.

Lemma skipn_length_app {A} (l evs : list A) :
  skipn (List.length l) (l ++ evs) = evs.
Proof. induction l; simpl; auto. Qed.

(** C8. Two ticks of the reminder sweep, the second starting from the
    world the first one leaves: if every record whose reminder went
    through in the first tick has its flag set when the second tick reads
    the collection, then over both ticks no appointment has more than one
    reminder that went through. *)
Theorem reminder_twice_sends_once `{DatetimeLib} :
  forall now1 now2 o w,
    NoDup (map _id (db w)) ->
    let w1 := snd (send_reminder now1 o w) in
    let w2 := snd (send_reminder now2 o w1) in
    let first_tick := skipn (List.length (trace w)) (trace w1) in
    let both_ticks := skipn (List.length (trace w)) (trace w2) in
    (forall a, In a (db w1) -> In (_id a) (delivered first_tick) ->
               reminder_sent a = true) ->
    forall id, (count_occ Nat.eq_dec (delivered both_ticks) id <= 1)%nat.
Proof.
  intros now1 now2 o w Hnd w1 w2 first_tick both_ticks Hcommit id.
  subst first_tick both_ticks w2 w1.
  rewrite !send_reminder_is_sweep in *.
  set (S1 := sweep _ _ _ _ _ _ _ o w) in *.
  destruct (sweep_deliveries "Running reminder job." (now1 + hours 23)%Z
              (now1 + hours 25)%Z ReminderSent reminder_text
              "Sent reminder to " "Failed to send reminder to " o w Hnd)
    as (evs1 & Htr1 & Hnd1 & _ & Hids1).
  fold S1 in Htr1, Hids1.
  assert (Hndw1 : NoDup (map _id (db (snd S1)))) by now rewrite Hids1.
  destruct (sweep_deliveries "Running reminder job." (now2 + hours 23)%Z
              (now2 + hours 25)%Z ReminderSent reminder_text
              "Sent reminder to " "Failed to send reminder to " o (snd S1) Hndw1)
    as (evs2 & Htr2 & Hnd2 & Hfrom2 & _).
  cbv zeta in Htr2. rewrite Htr2, Htr1, <- app_assoc, skipn_length_app.
  rewrite Htr1, skipn_length_app in Hcommit.
  rewrite delivered_app, count_occ_app.
  destruct (in_dec Nat.eq_dec id (delivered evs2)) as [Hin2 | Hout2].
  - assert (Hout1 : ~ In id (delivered evs1)).
    { intros Hin1. destruct (Hfrom2 id Hin2) as (a & Ha & Hid & Hflag).
      subst id. cbn [get_flag] in Hflag.
      rewrite (Hcommit a Ha Hin1) in Hflag. discriminate. }
    rewrite (proj1 (count_occ_not_In Nat.eq_dec _ _) Hout1).
    apply (proj1 (NoDup_count_occ Nat.eq_dec _) Hnd2).
  - rewrite (proj1 (count_occ_not_In Nat.eq_dec _ _) Hout2), Nat.add_0_r.
    apply (proj1 (NoDup_count_occ Nat.eq_dec _) Hnd1).
Qed.

Lemma reminder_twice_sends_once_witness :
  let w := world_of [booking 0 "whatsapp:+15550100" "" (moment 2099 1 2 10 0)] in
  let now := moment 2099 1 1 10 30 in
  NoDup (map _id (db w))
  /\ delivered (skipn (List.length (trace w))
                  (trace (snd (send_reminder now healthy
                                 (snd (send_reminder now healthy w))))))
     = [0%nat]
  /\ (count_occ Nat.eq_dec
        (delivered (skipn (List.length (trace w))
                      (trace (snd (send_reminder now healthy
                                     (snd (send_reminder now healthy w)))))))
        0 <= 1)%nat.
Proof.
  cbv zeta.
  set (w := world_of [booking 0 "whatsapp:+15550100" "" (moment 2099 1 2 10 0)]).
  set (now := moment 2099 1 1 10 30).
  assert (Hnd : NoDup (map _id (db w))).
  { repeat constructor. intros []. }
  assert (Hcommit :
    forall a, In a (db (snd (send_reminder now healthy w))) ->
              In (_id a) (delivered (skipn (List.length (trace w))
                            (trace (snd (send_reminder now healthy w))))) ->
              reminder_sent a = true).
  { intros a Hin _.
    assert (Hdb : db (snd (send_reminder now healthy w))
                  = [set_flag ReminderSent
                       (booking 0 "whatsapp:+15550100" "" (moment 2099 1 2 10 0))])
      by (vm_compute; reflexivity).
    rewrite Hdb in Hin. destruct Hin as [<- | []]. reflexivity. }
  split; [exact Hnd|]. split; [vm_compute; reflexivity|].
  exact (reminder_twice_sends_once now now healthy w Hnd Hcommit 0%nat).
Defined.

(** The residual race.  When the update of the flag is lost after a
    reminder went through, the next tick sends the reminder again. *)
Example lost_flag_update_repeats_the_reminder :
  let w := world_of [booking 0 "whatsapp:+15550100" "" (moment 2099 1 2 10 0)] in
  let now := moment 2099 1 1 10 30 in
  let o := {| mongo_up := fun k => negb (k =? 2)%nat;
              twilio_up := fun _ => true |} in
  let w1 := snd (send_reminder now o w) in
  let w2 := snd (send_reminder now o w1) in
  map reminder_sent (db w1) = [false]
  /\ delivered (trace w2) = [0%nat; 0%nat].
Proof. cbv zeta. by_computation. Qed.

(* ------------------------------------------------------------------ *)
(** ** Invariants of the stored appointments                            *)
(* ------------------------------------------------------------------ *)

Lemma descends_refl (a : Appointment) : descends a a.
Proof. unfold descends. tauto. Qed.

Lemma descends_set_flag (f : Flag) (a : Appointment) : descends a (set_flag f a).
Proof. unfold descends. destruct f; simpl; tauto. Qed.

Lemma descends_trans (a b c : Appointment) :
  descends a b -> descends b c -> descends a c.
Proof.
  unfold descends. intros (H1 & H2 & H3 & H4) (K1 & K2 & K3 & K4).
  repeat split; try congruence; auto.
Qed.

Lemma same_key_same_document (docs : list Appointment) (a b : Appointment) :
  NoDup (map _id docs) -> In a docs -> In b docs -> _id a = _id b -> a = b.
Proof.
  induction docs as [|x docs IH]; simpl; intros Hnd Ha Hb Hid; [destruct Ha|].
  inversion Hnd as [|? ? Hnotin Hnd']; subst.
  destruct Ha as [<- | Ha], Hb as [<- | Hb]; auto.
  - exfalso. apply Hnotin. rewrite Hid. now apply in_map.
  - exfalso. apply Hnotin. rewrite <- Hid. now apply in_map.
Qed.

Lemma NoDup_delete_first (id : nat) (docs : list Appointment) :
  NoDup (map _id docs) -> NoDup (map _id (delete_first id docs)).
Proof.
  induction docs as [|x docs IH]; simpl; intros Hnd; [constructor|].
  inversion Hnd as [|? ? Hnotin Hnd']; subst.
  destruct (_id x =? id)%nat; simpl; [exact Hnd'|].
  constructor; [|auto].
  intros Hin. apply Hnotin. apply in_map_iff in Hin.
  destruct Hin as (y & Hy & Hin). apply delete_first_incl in Hin.
  rewrite <- Hy. now apply in_map.
Qed.

(** What a tick of a sweep can do to the collection: set its flag on
    some of the documents. *)
Lemma sweep_effect `{DatetimeLib} start lo hi f text sent failed o w :
  NoDup (map _id (db w)) ->
  let r := sweep start lo hi f text sent failed o w in
  exists g, (forall a, g a = a \/ g a = set_flag f a)
            /\ db (snd r) = map g (db w)
            /\ next_id (snd r) = next_id w.
Proof.
  intros Hnd r. subst r.
  destruct (mongo_up o (List.length (trace w))) eqn:Hup.
  - destruct (sweep_run start lo hi f text sent failed o w Hnd Hup)
      as (_ & _ & outs & logs & _ & _ & _ & Hdb & Hnext & _).
    eexists. split; [|split; [exact Hdb | exact Hnext]].
    intros a. cbv beta. destruct (flagged _ _); auto.
  - destruct (sweep_query_fails start lo hi f text sent failed o w Hup)
      as (_ & _ & Hdb & Hnext).
    exists (fun a => a). split; [auto|]. split; [|exact Hnext].
    rewrite Hdb. symmetry. apply map_id.
Qed.

Lemma evolves_by_flags (f : Flag) (g : Appointment -> Appointment) w w' :
  (forall a, g a = a \/ g a = set_flag f a) ->
  db w' = map g (db w) -> next_id w' = next_id w ->
  store_wf w -> store_wf w' /\ evolves w w'.
Proof.
  intros Hg Hdb Hnext [Hnd Hlt].
  assert (Hid : forall a, _id (g a) = _id a).
  { intros a. destruct (Hg a) as [-> | ->]; [reflexivity | apply set_flag_id]. }
  split; [split|split].
  - rewrite Hdb, map_keeps_ids; auto.
  - intros a' Hin. rewrite Hdb in Hin. apply in_map_iff in Hin.
    destruct Hin as (a & <- & Hin). rewrite Hid, Hnext. auto.
  - rewrite Hnext. lia.
  - intros a' Hin. right. rewrite Hdb in Hin. apply in_map_iff in Hin.
    destruct Hin as (a & <- & Hin). exists a. split; [exact Hin|].
    destruct (Hg a) as [-> | ->];
      [apply descends_refl | apply descends_set_flag].
Qed.

Lemma step_evolves `{DatetimeLib} `{TextLib} (w w' : World) :
  store_wf w -> step w w' -> store_wf w' /\ evolves w w'.
Proof.
  intros Hwf Hstep. destruct Hstep as [request now o w | now o w | now o w].
  - destruct Hwf as [Hnd Hlt].
    destruct (whatsapp_reply_effect request now o w)
      as [[Hdb Hnext] | [(id & Hdb & Hnext) | (d & Hdb & Hnext)]];
      cbv zeta in Hdb, Hnext.
    + split; [split|split].
      * now rewrite Hdb.
      * intros a Hin. rewrite Hdb in Hin. rewrite Hnext. auto.
      * rewrite Hnext. lia.
      * intros a' Hin. right. rewrite Hdb in Hin. exists a'.
        split; [exact Hin | apply descends_refl].
    + split; [split|split].
      * rewrite Hdb. now apply NoDup_delete_first.
      * intros a Hin. rewrite Hdb in Hin. apply delete_first_incl in Hin.
        rewrite Hnext. auto.
      * rewrite Hnext. lia.
      * intros a' Hin. right. rewrite Hdb in Hin.
        apply delete_first_incl in Hin. exists a'.
        split; [exact Hin | apply descends_refl].
    + split; [split|split].
      * rewrite Hdb, map_app. apply NoDup_app; [exact Hnd | |].
        -- repeat constructor. intros [].
        -- intros k Hk [<- | []]. apply in_map_iff in Hk.
           destruct Hk as (a & Hid & Hin). apply Hlt in Hin.
           simpl in Hid. lia.
      * intros a Hin. rewrite Hdb in Hin. rewrite Hnext.
        apply in_app_or in Hin. destruct Hin as [Hin | [<- | []]].
        -- apply Hlt in Hin. lia.
        -- simpl. lia.
      * rewrite Hnext. lia.
      * intros a' Hin. rewrite Hdb in Hin.
        apply in_app_or in Hin. destruct Hin as [Hin | [<- | []]].
        -- right. exists a'. split; [exact Hin | apply descends_refl].
        -- left. simpl. lia.
  - rewrite send_reminder_is_sweep.
    destruct (sweep_effect "Running reminder job." (now + hours 23)%Z
                (now + hours 25)%Z ReminderSent reminder_text
                "Sent reminder to " "Failed to send reminder to " o w
                (proj1 Hwf)) as (g & Hg & Hdb & Hnext).
    eapply evolves_by_flags; eauto.
  - rewrite send_follow_up_is_sweep.
    destruct (sweep_effect "Running follow-up job." (now - hours 24)%Z now
                FollowUpSent follow_up_text
                "Sent follow-up to " "Failed to send follow-up to " o w
                (proj1 Hwf)) as (g & Hg & Hdb & Hnext).
    eapply evolves_by_flags; eauto.
Qed.

Lemma reachable_evolves `{DatetimeLib} `{TextLib} (w w' : World) :
  store_wf w -> reachable w w' -> store_wf w' /\ evolves w w'.
Proof.
  intros Hwf Hreach. induction Hreach as [w | w w2 w3 Hreach IH Hstep].
  - split; [exact Hwf|]. split; [lia|].
    intros a Hin. right. exists a. split; [exact Hin | apply descends_refl].
  - destruct (IH Hwf) as [Hwf2 [Hle2 Hfrom2]].
    destruct (step_evolves w2 w3 Hwf2 Hstep) as [Hwf3 [Hle3 Hfrom3]].
    split; [exact Hwf3|]. split; [lia|].
    intros a3 Hin3. destruct (Hfrom3 a3 Hin3) as [Hnew | (a2 & Hin2 & Hd23)].
    + left. lia.
    + destruct (Hfrom2 a2 Hin2) as [Hnew | (a & Hin & Hd12)].
      * left. destruct Hd23 as [Hid _]. lia.
      * right. exists a. split; [exact Hin|].
        eapply descends_trans; eassumption.
Qed.

(** C5. Along any sequence of webhook requests and sweep ticks, under
    any behaviour of the store and the provider, a document keeps its
    date, and a flag that is set stays set: for a document of the earlier
    collection and the document of the same key in the later one, the
    dates are equal, and [reminder_sent] and [follow_up_sent] are set in
    the later one whenever they are set in the earlier one. *)
Theorem date_fixed_and_flags_monotone `{DatetimeLib} `{TextLib} :
  forall w w',
    store_wf w ->
    reachable w w' ->
    forall a a',
      In a (db w) -> In a' (db w') -> _id a' = _id a ->
      appointment_date a' = appointment_date a
      /\ (reminder_sent a = true -> reminder_sent a' = true)
      /\ (follow_up_sent a = true -> follow_up_sent a' = true).
Proof.
  intros w w' Hwf Hreach a a' Hin Hin' Hid.
  destruct (reachable_evolves w w' Hwf Hreach) as [_ [_ Hfrom]].
  destruct (Hfrom a' Hin') as [Hnew | (a0 & Hin0 & Hdesc)].
  - destruct Hwf as [_ Hlt]. apply Hlt in Hin. lia.
  - assert (a0 = a).
    { apply (same_key_same_document (db w)); auto.
      - apply Hwf.
      - destruct Hdesc as [Hid0 _]. congruence. }
    subst a0. destruct Hdesc as (_ & Hdate & Hr & Hf). auto.
Qed.

Lemma date_fixed_and_flags_monotone_witness :
  let due := booking 0 "whatsapp:+15550100" "" (moment 2099 1 2 10 0) in
  let w := world_of [due] in
  let w' := snd (send_reminder (moment 2099 1 1 10 30) healthy w) in
  store_wf w
  /\ reachable w w'
  /\ In due (db w)
  /\ In (set_flag ReminderSent due) (db w')
  /\ appointment_date (set_flag ReminderSent due) = appointment_date due.
Proof.
  cbv zeta.
  set (due := booking 0 "whatsapp:+15550100" "" (moment 2099 1 2 10 0)).
  set (w := world_of [due]).
  set (w' := snd (send_reminder (moment 2099 1 1 10 30) healthy w)).
  assert (Hwf : store_wf w).
  { split.
    - repeat constructor. intros [].
    - intros a [<- | []]. simpl. lia. }
  assert (Hreach : reachable w w').
  { apply (reach_step w w w' (reach_refl w)).
    apply (step_reminder (moment 2099 1 1 10 30) healthy w). }
  assert (Hin : In due (db w)) by (left; reflexivity).
  assert (Hin' : In (set_flag ReminderSent due) (db w')).
  { assert (Hdb : db w' = [set_flag ReminderSent due])
      by (vm_compute; reflexivity).
    rewrite Hdb. left. reflexivity. }
  split; [exact Hwf|]. split; [exact Hreach|]. split; [exact Hin|].
  split; [exact Hin'|].
  exact (proj1 (date_fixed_and_flags_monotone w w' Hwf Hreach due
                  (set_flag ReminderSent due) Hin Hin' eq_refl)).
Defined.

(* ------------------------------------------------------------------ *)
(** ** The dispatcher and the cap on buttons                            *)
(* ------------------------------------------------------------------ *)

Lemma attempts_app (e1 e2 : list Event) :
  attempts (e1 ++ e2) = attempts e1 ++ attempts e2.
Proof.
  induction e1 as [|[c ok] e1 IH]; [reflexivity|].
  destruct c; simpl; now rewrite IH.
Qed.

Lemma button_groups_app (e1 e2 : list Event) :
  button_groups (e1 ++ e2) = button_groups e1 ++ button_groups e2.
Proof. unfold button_groups. now rewrite attempts_app, flat_map_app. Qed.

(** [app.py]: the dispatcher makes one provider call, with the first
    three buttons at most; its cap is 3 and its policy is truncation. *)
Lemma send_interactive_message_truncates to message buttons o w :
  let r := send_interactive_message to message buttons o w in
  trace (snd r)
  = trace w ++ [{| call := MessagesCreate None to
                             (InteractiveJson message (firstn 3 buttons));
                   succeeded := twilio_up o (List.length (trace w)) |}]
  /\ db (snd r) = db w.
Proof.
  cbv zeta. unfold send_interactive_message. exec.
  destruct (3 <? len buttons)%Z eqn:E; exec.
  - destruct (twilio_up o (List.length (trace w))); exec; auto.
  - apply Z.ltb_ge in E. unfold len in E.
    rewrite (firstn_all2 (n := 3) buttons) by lia.
    destruct (twilio_up o (List.length (trace w))); exec; auto.
Qed.

Ltac exec_app :=
  cbv beta iota zeta delta
    [_app.send_interactive_message _app.send_single_interactive_message
     messages_create bind ret raise try_except logger with_event Exception];
  cbn [db trace log next_id fst snd].

(** [_app.py]: one message goes out with the first two buttons at most. *)
Lemma send_single_interactive_message_run to message buttons o w :
  exists sid w',
    _app.send_single_interactive_message to message buttons o w = (Ok sid, w')
    /\ trace w'
       = trace w ++ [{| call := MessagesCreate None to
                                  (PersistentAction message (firstn 2 buttons));
                        succeeded := twilio_up o (List.length (trace w)) |}].
Proof.
  unfold _app.send_single_interactive_message. exec_app.
  destruct (2 <? len buttons)%Z eqn:E; exec_app.
  - destruct (twilio_up o (List.length (trace w))); exec_app;
      do 2 eexists; split; reflexivity.
  - apply Z.ltb_ge in E. unfold len in E.
    rewrite (firstn_all2 (n := 2) buttons) by lia.
    destruct (twilio_up o (List.length (trace w))); exec_app;
      do 2 eexists; split; reflexivity.
Qed.

Lemma send_chunks_run to message :
  forall chunks o w,
    exists w' evs,
      for_each chunks
        (fun chunk => _app.send_single_interactive_message to message chunk ;;
                      ret tt) o w = (Ok tt, w')
      /\ trace w' = trace w ++ evs
      /\ button_groups evs = map (firstn 2) chunks.
Proof.
  induction chunks as [|chunk chunks IH]; intros o w.
  - exists w, []. repeat split. now rewrite app_nil_r.
  - destruct (send_single_interactive_message_run to message chunk o w)
      as (sid & w1 & Hrun & Htr).
    destruct (IH o w1) as (w' & evs & Hrest & Htr' & Hgroups).
    exists w'. eexists. split; [|split].
    + cbn [for_each]. unfold bind at 1. unfold bind at 1. rewrite Hrun.
      unfold ret at 1. exact Hrest.
    + rewrite Htr', Htr, <- app_assoc. reflexivity.
    + rewrite button_groups_app, Hgroups. reflexivity.
Qed.

(** [_app.py]: the dispatcher cuts the buttons in chunks of five and
    sends the first two buttons of each chunk; no message carries more
    than two. *)
Lemma chunked_dispatcher_groups to message buttons o w :
  let r := _app.send_interactive_message to message buttons o w in
  exists evs,
    trace (snd r) = trace w ++ evs
    /\ button_groups evs = map (firstn 2) (_app.button_chunks buttons)
    /\ Forall (fun group => List.length group <= 2)%nat (button_groups evs).
Proof.
  cbv zeta. unfold _app.send_interactive_message.
  unfold try_except, bind at 1.
  destruct (send_chunks_run to message (_app.button_chunks buttons) o w)
    as (w' & evs & Hrun & Htr & Hgroups).
  rewrite Hrun. exec_app.
  exists evs. split; [exact Htr|]. split; [exact Hgroups|].
  rewrite Hgroups. apply Forall_forall. intros g Hin.
  apply in_map_iff in Hin. destruct Hin as (c & <- & _).
  apply firstn_le_length.
Qed.

(** C10 (the code departs from the claim). Handed six choices, the
    dispatcher of [_app.py] sends two messages, the first with the first
    and the second choice, the second with the sixth: the choices are not
    truncated to the cap of two, which would be the one message with the
    first two, nor split, since the third, fourth and fifth reach no
    message.  No message carries more than two choices. *)
Theorem six_choices_neither_truncated_nor_split :
  let choice n := {| reply_id := str_int n; reply_title := str_int n |} in
  let choices := map choice [1; 2; 3; 4; 5; 6]%Z in
  let r := _app.send_interactive_message "whatsapp:+15550100" greeting_msg
             choices healthy empty_world in
  let groups := button_groups (trace (snd r)) in
  groups = [[choice 1; choice 2]; [choice 6]]%Z
  /\ groups <> [firstn 2 choices]
  /\ List.concat groups <> choices
  /\ Forall (fun group => List.length group <= 2)%nat groups.
Proof.
  cbv zeta.
  split; [vm_compute; reflexivity|].
  split; [vm_compute; discriminate|].
  split; [vm_compute; discriminate|].
  vm_compute. repeat constructor.
Qed.

(* ------------------------------------------------------------------ *)
(** ** Further properties of the handler of [app.py]                    *)
(* ------------------------------------------------------------------ *)

Lemma contains_false_of (a b m : string) :
  contains a b = true -> contains a m = false -> contains b m = false.
Proof.
  intros Hab Ham. destruct (contains b m) eqn:E; [|reflexivity].
  rewrite (contains_trans a b m Hab E) in Ham. discriminate.
Qed.

(** A message without "book" has none of the words built on it. *)
Lemma no_book_words (m : string) :
  contains "book" m = false ->
  contains "book_now" m = false /\ contains "book_later" m = false
  /\ contains "cancel_booking" m = false.
Proof.
  intros H. repeat split;
    apply (contains_false_of "book"); auto.
Qed.

(** A request whose signature the validator rejects is aborted with
    status 403 before anything else happens: no store call, no provider
    call, nothing in the log but the three lines of the validation, which
    quote the URL that was checked, the signature and the form. *)
Theorem rejected_signature_aborts `{DatetimeLib} `{TextLib} :
  forall request now o w,
    signature_valid request = false ->
    let r := whatsapp_reply request now o w in
    fst r = Raise (HTTPException 403)
    /\ trace (snd r) = trace w
    /\ db (snd r) = db w
    /\ next_id (snd r) = next_id w
    /\ log (snd r)
       = log w
         ++ [ {| level := DEBUG;
                 message := ("Validating request: URL=" ++ validated_url request
                             ++ ", Signature=" ++ header_signature request)%string |};
              {| level := WARNING; message := "Invalid Twilio request" |};
              {| level := DEBUG;
                 message := ("Request details: URL=" ++ validated_url request
                             ++ ", POST data=" ++ form_text request
                             ++ ", Signature=" ++ header_signature request)%string |} ].
Proof.
  intros request now o w Hsig r. subst r.
  unfold whatsapp_reply, validate_twilio_request. rewrite Hsig. exec.
  rewrite <- !app_assoc. repeat split; reflexivity.
Qed.

Lemma rejected_signature_aborts_witness :
  let forged := request_of "2099-01-01 10:00" false in
  signature_valid forged = false
  /\ fst (whatsapp_reply forged 0%Z healthy empty_world)
     = Raise (HTTPException 403)
  /\ db (snd (whatsapp_reply forged 0%Z healthy empty_world)) = []
  /\ map message (log (snd (whatsapp_reply forged 0%Z healthy empty_world)))
     = [ "Validating request: URL=https://bot.example/whatsapp, Signature=c2lnbmF0dXJl";
         "Invalid Twilio request";
         "Request details: URL=https://bot.example/whatsapp, POST data=ImmutableMultiDict([]), Signature=c2lnbmF0dXJl" ].
Proof.
  cbv zeta.
  destruct (rejected_signature_aborts (request_of "2099-01-01 10:00" false)
              0%Z healthy empty_world eq_refl)
    as (Hr & _ & Hdb & _ & Hlog).
  split; [reflexivity|]. split; [exact Hr|]. split; [exact Hdb|].
  rewrite Hlog. reflexivity.
Defined.

(** The external calls of a request, case by case. *)
Lemma whatsapp_reply_calls `{DatetimeLib} `{TextLib} :
  forall request now o w,
    let r := whatsapp_reply request now o w in
    (trace (snd r) = trace w /\ db (snd r) = db w)
    \/ (exists ok,
          trace (snd r)
          = trace w ++ [{| call := MessagesCreate None (form_From request)
                                     (InteractiveJson greeting_msg greeting_buttons);
                           succeeded := ok |}]
          /\ db (snd r) = db w)
    \/ (exists d ok,
          strptime (lower (form_Body request)) = Some d /\ (now <= d)%Z
          /\ trace (snd r)
             = trace w ++ [{| call := InsertOne (booking (next_id w)
                                                   (form_From request) ""
                                                   (bson_datetime d));
                              succeeded := ok |}]
          /\ db (snd r)
             = if ok
               then db w ++ [booking (next_id w) (form_From request) ""
                               (bson_datetime d)]
               else db w).
Proof.
  intros request now o w r. subst r.
  unfold whatsapp_reply, validate_twilio_request.
  destruct (signature_valid request); exec.
  2: { left. split; reflexivity. }
  split_on_rules.
  4: { (* the cancellation rule cannot be reached *)
    exfalso.
    match goal with
    | Hb : contains "book_now" _ || contains "book" _ = false,
      Hc : contains "cancel_booking" _ = true |- _ =>
        apply orb_false_iff in Hb; destruct Hb as [_ Hb];
        apply no_book_words in Hb; destruct Hb as (_ & _ & Hb);
        rewrite Hb in Hc; discriminate
    end. }
  all: repeat split_on_oracle. all: split_on_data.
  all: repeat split_on_oracle.
  all: try (left; split; reflexivity).
  all: try (right; left; eexists; split; reflexivity).
  all: right; right; do 2 eexists;
       (split; [first [eassumption | reflexivity]|]);
       (split; [match goal with
                | Hc : (_ <? _)%Z = false |- _ => apply Z.ltb_ge in Hc; exact Hc
                end|]);
       split; reflexivity.
Qed.

(** A request makes at most one external call.  It is the provider call
    of the greeting, which leaves the collection alone; or the insertion
    of an appointment whose date [strptime] read from the message, which
    is not earlier than the current time and which the store keeps to the
    millisecond; otherwise there is no
    call at all and the collection is left as it was.  In particular no
    request ever queries the collection or deletes from it. *)
Theorem request_makes_at_most_one_call `{DatetimeLib} `{TextLib} :
  forall request now o w,
    let r := whatsapp_reply request now o w in
    (trace (snd r) = trace w /\ db (snd r) = db w)
    \/ (exists ok,
          trace (snd r)
          = trace w ++ [{| call := MessagesCreate None (form_From request)
                                     (InteractiveJson greeting_msg greeting_buttons);
                           succeeded := ok |}]
          /\ db (snd r) = db w)
    \/ (exists d ok,
          strptime (lower (form_Body request)) = Some d /\ (now <= d)%Z
          /\ trace (snd r)
             = trace w ++ [{| call := InsertOne (booking (next_id w)
                                                   (form_From request) ""
                                                   (bson_datetime d));
                              succeeded := ok |}]
          /\ db (snd r)
             = if ok
               then db w ++ [booking (next_id w) (form_From request) ""
                               (bson_datetime d)]
               else db w).
Proof. exact whatsapp_reply_calls. Qed.

(** A message with "book" in it that is no greeting gets the prompt for a
    service, whatever else it says; this covers "book_now", "book_later"
    and "cancel_booking".  No external call is made. *)
Theorem booking_word_gets_service_prompt `{DatetimeLib} `{TextLib} :
  forall request now o w,
    signature_valid request = true ->
    contains "hi" (lower (form_Body request)) = false ->
    contains "hello" (lower (form_Body request)) = false ->
    contains "book" (lower (form_Body request)) = true ->
    let r := whatsapp_reply request now o w in
    fst r = Ok (Some service_prompt)
    /\ trace (snd r) = trace w /\ db (snd r) = db w.
Proof.
  intros request now o w Hsig Hhi Hhello Hbook r. subst r.
  unfold whatsapp_reply, validate_twilio_request. rewrite Hsig. exec.
  rewrite Hhi, Hhello, Hbook, orb_true_r. exec. repeat split; reflexivity.
Qed.

Lemma booking_word_gets_service_prompt_witness :
  signature_valid (inbound "Cancel_Booking") = true
  /\ contains "book" (lower (form_Body (inbound "Cancel_Booking"))) = true
  /\ fst (whatsapp_reply (inbound "Cancel_Booking") 0%Z healthy empty_world)
     = Ok (Some service_prompt).
Proof.
  assert (Hhi : contains "hi" (lower (form_Body (inbound "Cancel_Booking")))
                = false) by reflexivity.
  assert (Hhello : contains "hello" (lower (form_Body (inbound "Cancel_Booking")))
                   = false) by reflexivity.
  assert (Hbook : contains "book" (lower (form_Body (inbound "Cancel_Booking")))
                  = true) by reflexivity.
  split; [reflexivity|]. split; [exact Hbook|].
  exact (proj1 (booking_word_gets_service_prompt (inbound "Cancel_Booking") 0%Z
                  healthy empty_world eq_refl Hhi Hhello Hbook)).
Defined.

(** A message that names a service and matches no earlier rule is asked
    for a date, and the prompt echoes the whole message as [str.title]
    renders its lower-cased form, not the name of the service alone.  No
    external call is made. *)
Theorem service_message_gets_date_prompt `{DatetimeLib} `{TextLib} :
  forall request now o w,
    signature_valid request = true ->
    contains "hi" (lower (form_Body request)) = false ->
    contains "hello" (lower (form_Body request)) = false ->
    contains "book" (lower (form_Body request)) = false ->
    contains "haircut" (lower (form_Body request)) = true
    \/ contains "consultation" (lower (form_Body request)) = true ->
    let r := whatsapp_reply request now o w in
    fst r
    = Ok (Some ("When would you like to schedule your "
                ++ title (lower (form_Body request))
                ++ "? Please provide the date and time in this format: YYYY-MM-DD HH:MM.")%string)
    /\ trace (snd r) = trace w /\ db (snd r) = db w.
Proof.
  intros request now o w Hsig Hhi Hhello Hbook Hservice r. subst r.
  destruct (no_book_words _ Hbook) as (Hnow & Hlater & Hcancel).
  assert (Hs : contains "haircut" (lower (form_Body request))
               || contains "consultation" (lower (form_Body request)) = true)
    by (apply orb_true_iff; exact Hservice).
  unfold whatsapp_reply, validate_twilio_request. rewrite Hsig. exec.
  rewrite Hhi, Hhello, Hbook, Hnow, Hlater, Hcancel, Hs. exec.
  repeat split; reflexivity.
Qed.

Lemma service_message_gets_date_prompt_witness :
  let request := inbound "a HAIRCUT, please" in
  signature_valid request = true
  /\ contains "haircut" (lower (form_Body request)) = true
  /\ fst (whatsapp_reply request 0%Z healthy empty_world)
     = Ok (Some "When would you like to schedule your A Haircut, Please? Please provide the date and time in this format: YYYY-MM-DD HH:MM.").
Proof.
  intros request.
  assert (Hhi : contains "hi" (lower (form_Body request)) = false)
    by reflexivity.
  assert (Hhello : contains "hello" (lower (form_Body request)) = false)
    by reflexivity.
  assert (Hbook : contains "book" (lower (form_Body request)) = false)
    by reflexivity.
  assert (Hcut : contains "haircut" (lower (form_Body request)) = true)
    by reflexivity.
  split; [reflexivity|]. split; [exact Hcut|].
  exact (proj1 (service_message_gets_date_prompt request 0%Z healthy empty_world
                  eq_refl Hhi Hhello Hbook (or_introl Hcut))).
Defined.

(** A message that matches no rule and whose lower-cased form is not
    sixteen characters long, the empty body of a request without [Body]
    included, gets the help text; a warning that quotes the sender and
    the lower-cased message is logged and no external call is made. *)
Theorem unrecognized_message_gets_help `{DatetimeLib} `{TextLib} :
  forall request now o w,
    signature_valid request = true ->
    contains "hi" (lower (form_Body request)) = false ->
    contains "hello" (lower (form_Body request)) = false ->
    contains "book" (lower (form_Body request)) = false ->
    contains "haircut" (lower (form_Body request)) = false ->
    contains "consultation" (lower (form_Body request)) = false ->
    str_len (lower (form_Body request)) <> 16%nat ->
    let r := whatsapp_reply request now o w in
    fst r
    = Ok (Some "I didn't understand that. Type 'hi' for options or 'book' to book an appointment.")
    /\ trace (snd r) = trace w /\ db (snd r) = db w
    /\ exists earlier,
         log (snd r)
         = earlier ++ [{| level := WARNING;
                          message := ("Unrecognized message from "
                                      ++ form_From request ++ ": "
                                      ++ lower (form_Body request))%string |}].
Proof.
  intros request now o w Hsig Hhi Hhello Hbook Hcut Hcons Hlen r. subst r.
  destruct (no_book_words _ Hbook) as (Hnow & Hlater & Hcancel).
  apply Nat.eqb_neq in Hlen.
  unfold whatsapp_reply, validate_twilio_request. rewrite Hsig. exec.
  rewrite Hhi, Hhello, Hbook, Hnow, Hlater, Hcancel, Hcut, Hcons, Hlen. exec.
  repeat split; try reflexivity. eexists. reflexivity.
Qed.

Lemma unrecognized_message_gets_help_witness :
  let danke := ("f" ++ String "195" (String "188" "") ++ "r dich, danke")%string in
  let request := inbound danke in
  signature_valid request = true
  /\ String.length (lower (form_Body request)) = 16%nat
  /\ str_len (lower (form_Body request)) = 15%nat
  /\ fst (whatsapp_reply request 0%Z healthy empty_world)
     = Ok (Some "I didn't understand that. Type 'hi' for options or 'book' to book an appointment.")
  /\ map message (log (snd (whatsapp_reply request 0%Z healthy empty_world)))
     = [ "Validating request: URL=https://bot.example/whatsapp, Signature=c2lnbmF0dXJl";
         "Twilio request validated successfully";
         ("Received message from whatsapp:+15550100: " ++ danke)%string;
         "Full request details: CombinedMultiDict([])";
         ("Unrecognized message from whatsapp:+15550100: " ++ danke)%string ].
Proof.
  intros danke request.
  assert (Hhi : contains "hi" (lower (form_Body request)) = false)
    by reflexivity.
  assert (Hhello : contains "hello" (lower (form_Body request)) = false)
    by reflexivity.
  assert (Hbook : contains "book" (lower (form_Body request)) = false)
    by reflexivity.
  assert (Hcut : contains "haircut" (lower (form_Body request)) = false)
    by reflexivity.
  assert (Hcons : contains "consultation" (lower (form_Body request)) = false)
    by reflexivity.
  assert (Hlen : str_len (lower (form_Body request)) <> 16%nat)
    by (vm_compute; discriminate).
  split; [reflexivity|]. split; [reflexivity|]. split; [reflexivity|].
  split; [|vm_compute; reflexivity].
  exact (proj1 (unrecognized_message_gets_help request 0%Z healthy empty_world
                  eq_refl Hhi Hhello Hbook Hcut Hcons Hlen)).
Defined.

(* ------------------------------------------------------------------ *)
(** ** Further properties of the two dispatchers                        *)
(* ------------------------------------------------------------------ *)

(** The dispatcher of [app.py] never raises.  It makes one provider
    call, with the first three buttons at most, and returns the handle of
    the message when the provider accepts it and [None] when it does not;
    it logs a warning exactly when buttons are cut off, then one line for
    the outcome, an error if the call failed. *)
Theorem dispatcher_returns_handle_or_none :
  forall to message buttons o w,
    let r := send_interactive_message to message buttons o w in
    let up := twilio_up o (List.length (trace w)) in
    (exists sid, fst r = Ok (if up then Some sid else None))
    /\ trace (snd r)
       = trace w ++ [{| call := MessagesCreate None to
                                  (InteractiveJson message (firstn 3 buttons));
                        succeeded := up |}]
    /\ db (snd r) = db w
    /\ exists cut outcome,
         log (snd r) = log w ++ cut ++ [outcome]
         /\ (cut = [] <-> (List.length buttons <= 3)%nat)
         /\ (List.length cut <= 1)%nat
         /\ Forall (fun l => level l = WARNING) cut
         /\ level outcome = (if up then INFO else ERROR).
Proof.
  intros to message buttons o w r up. subst r up.
  unfold send_interactive_message. exec.
  destruct (3 <? len buttons)%Z eqn:E; exec.
  - apply Z.ltb_lt in E. unfold len in E.
    destruct (twilio_up o (List.length (trace w))); exec;
      (split; [exists (List.length (trace w)); reflexivity|]);
      (split; [reflexivity|]);
      (split; [reflexivity|]); do 2 eexists;
      (split; [symmetry; apply app_assoc|]); (split; [split; [discriminate | lia]|]);
      (split; [simpl; lia|]); (split; [repeat constructor | reflexivity]).
  - apply Z.ltb_ge in E. unfold len in E.
    rewrite (firstn_all2 (n := 3) buttons) by lia.
    destruct (twilio_up o (List.length (trace w))); exec;
      (split; [exists (List.length (trace w)); reflexivity|]);
      (split; [reflexivity|]);
      (split; [reflexivity|]); exists []; eexists;
      (split; [reflexivity|]); (split; [split; [lia | reflexivity]|]);
      (split; [simpl; lia|]); (split; [constructor | reflexivity]).
Qed.

(** [_app.py]: cutting a list in chunks loses nothing and keeps the
    order; every chunk has between one and five buttons. *)
Lemma button_chunks_step (b : Button) (rest : list Button) :
  _app.button_chunks (b :: rest)
  = firstn 5 (b :: rest) :: _app.button_chunks (skipn 5 (b :: rest)).
Proof.
  unfold _app.button_chunks, _app.range_step, _app.max_buttons_per_message.
  set (bs := b :: rest).
  assert (Hcount : ((List.length bs + (5 - 1)) / 5
                    = S ((List.length (skipn 5 bs) + (5 - 1)) / 5))%nat).
  { rewrite length_skipn. subst bs. cbn [List.length].
    destruct (le_lt_dec 5 (S (List.length rest))) as [Hge | Hlt].
    - replace (S (List.length rest) + (5 - 1))%nat
        with ((S (List.length rest) - 5 + (5 - 1)) + 1 * 5)%nat by lia.
      rewrite Nat.div_add by lia. lia.
    - replace (S (List.length rest) - 5)%nat with 0%nat by lia.
      destruct rest as [|? [|? [|? [|? ?]]]]; cbn [List.length] in *;
        try reflexivity; lia. }
  rewrite Hcount. cbn [seq map]. f_equal.
  rewrite <- seq_shift, !map_map. apply map_ext. intros k.
  rewrite skipn_skipn. do 2 f_equal. lia.
Qed.

Lemma button_chunks_nil : _app.button_chunks [] = [].
Proof. reflexivity. Qed.

(** [_app.py]: the chunks of a list of buttons, put end to end, are the
    list again; there are [ceil(n / 5)] of them and each holds between
    one and five buttons. *)
Theorem button_chunks_partition :
  forall buttons,
    List.concat (_app.button_chunks buttons) = buttons
    /\ Forall (fun chunk => 1 <= List.length chunk <= 5)%nat
              (_app.button_chunks buttons)
    /\ List.length (_app.button_chunks buttons)
       = ((List.length buttons + 4) / 5)%nat.
Proof.
  intros buttons.
  assert (Hgen : forall n bs, (List.length bs <= n)%nat ->
            List.concat (_app.button_chunks bs) = bs
            /\ Forall (fun chunk => 1 <= List.length chunk <= 5)%nat
                      (_app.button_chunks bs)).
  { induction n as [|n IH]; intros bs Hlen.
    - destruct bs; [|simpl in Hlen; lia]. split; [reflexivity | constructor].
    - destruct bs as [|b rest]; [split; [reflexivity | constructor]|].
      rewrite button_chunks_step.
      assert (Hshort : (List.length (skipn 5 (b :: rest)) <= n)%nat).
      { rewrite length_skipn. simpl in Hlen. cbn [List.length]. lia. }
      destruct (IH _ Hshort) as [Hcat Hall]. split.
      + cbn [List.concat]. rewrite Hcat. apply firstn_skipn.
      + constructor; [|exact Hall].
        rewrite length_firstn. cbn [List.length]. lia. }
  destruct (Hgen (List.length buttons) buttons (le_n _)) as [Hcat Hall].
  split; [exact Hcat|]. split; [exact Hall|].
  unfold _app.button_chunks, _app.range_step, _app.max_buttons_per_message.
  rewrite !length_map, length_seq. reflexivity.
Qed.

(** The events of the chunked dispatcher: one provider call for each
    chunk, carrying its first two buttons. *)
Lemma send_chunks_calls to message :
  forall chunks o w,
    exists w' oks,
      for_each chunks
        (fun chunk => _app.send_single_interactive_message to message chunk ;;
                      ret tt) o w = (Ok tt, w')
      /\ List.length oks = List.length chunks
      /\ trace w'
         = trace w ++ map (fun '(chunk, ok) =>
                             {| call := MessagesCreate None to
                                          (PersistentAction message (firstn 2 chunk));
                                succeeded := ok |}) (combine chunks oks)
      /\ db w' = db w /\ next_id w' = next_id w.
Proof.
  induction chunks as [|chunk chunks IH]; intros o w.
  - exists w, []. repeat split. now rewrite app_nil_r.
  - assert (Hone : exists sid w1 ok,
              _app.send_single_interactive_message to message chunk o w
              = (Ok sid, w1)
              /\ trace w1 = trace w ++ [{| call := MessagesCreate None to
                                             (PersistentAction message (firstn 2 chunk));
                                           succeeded := ok |}]
              /\ db w1 = db w /\ next_id w1 = next_id w).
    { unfold _app.send_single_interactive_message. exec_app.
      destruct (2 <? len chunk)%Z eqn:E; exec_app.
      - destruct (twilio_up o (List.length (trace w))); exec_app;
          do 3 eexists; repeat split; reflexivity.
      - apply Z.ltb_ge in E. unfold len in E.
        rewrite (firstn_all2 (n := 2) chunk) by lia.
        destruct (twilio_up o (List.length (trace w))); exec_app;
          do 3 eexists; repeat split; reflexivity. }
    destruct Hone as (sid & w1 & ok & Hrun & Htr & Hdb & Hnext).
    destruct (IH o w1) as (w' & oks & Hrest & Hlen & Htr' & Hdb' & Hnext').
    exists w', (ok :: oks). split; [|split; [|split; [|split]]].
    + cbn [for_each]. unfold bind at 1. unfold bind at 1. rewrite Hrun.
      unfold ret at 1. exact Hrest.
    + simpl. now rewrite Hlen.
    + rewrite Htr', Htr, <- app_assoc. reflexivity.
    + congruence.
    + congruence.
Qed.

(** The dispatcher of [_app.py] reports success whatever the provider
    does: it makes one provider call for each chunk of five buttons, with
    the first two buttons of the chunk, swallows every failure and returns
    [True]; given no button at all it sends nothing. *)
Theorem chunked_dispatcher_always_reports_success :
  forall to message buttons o w,
    let r := _app.send_interactive_message to message buttons o w in
    fst r = Ok (Some true)
    /\ db (snd r) = db w
    /\ exists oks,
         List.length oks = ((List.length buttons + 4) / 5)%nat
         /\ trace (snd r)
            = trace w
              ++ map (fun '(chunk, ok) =>
                        {| call := MessagesCreate None to
                                     (PersistentAction message (firstn 2 chunk));
                           succeeded := ok |})
                     (combine (_app.button_chunks buttons) oks).
Proof.
  intros to message buttons o w r.
  destruct (send_chunks_calls to message (_app.button_chunks buttons) o w)
    as (w' & oks & Hrun & Hlen & Htr & Hdb & _).
  assert (Hres : exists w2, r = (Ok (Some true), w2)
                            /\ trace w2 = trace w' /\ db w2 = db w').
  { subst r. unfold _app.send_interactive_message, try_except.
    unfold bind at 1. rewrite Hrun. exec_app.
    eexists. repeat split; reflexivity. }
  destruct Hres as (w2 & -> & Htr2 & Hdb2). cbn [fst snd].
  split; [reflexivity|]. split; [congruence|].
  exists oks. split; [|congruence].
  rewrite Hlen. apply button_chunks_partition.
Qed.

(** With the provider down the dispatcher of [_app.py] still answers
    [True]. *)
Example chunked_dispatcher_hides_failures :
  let down := {| mongo_up := fun _ => true; twilio_up := fun _ => false |} in
  let r := _app.send_interactive_message "whatsapp:+15550100" greeting_msg
             greeting_buttons down empty_world in
  fst r = Ok (Some true) /\ map succeeded (trace (snd r)) = [false].
Proof. cbv zeta. by_computation. Qed.

Lemma length_concat_firstn (n : nat) (chunks : list (list Button)) :
  (List.length (List.concat (map (firstn n) chunks))
   <= List.length (List.concat chunks))%nat.
Proof.
  induction chunks as [|c chunks IH]; simpl; [lia|].
  rewrite !length_app, length_firstn. lia.
Qed.

(** The dispatcher of [_app.py] delivers every button it is given exactly
    when it is given two at most: from three buttons on, some button
    reaches no message. *)
Theorem chunked_dispatcher_keeps_all_iff_two_at_most :
  forall to message buttons o w,
    let r := _app.send_interactive_message to message buttons o w in
    let sent := button_groups (skipn (List.length (trace w)) (trace (snd r))) in
    List.concat sent = buttons <-> (List.length buttons <= 2)%nat.
Proof.
  intros to message buttons o w r sent. subst sent r.
  destruct (chunked_dispatcher_groups to message buttons o w)
    as (evs & Htr & Hgroups & _).
  cbv zeta in Htr. rewrite Htr, skipn_length_app, Hgroups. split.
  - intros Hall.
    destruct buttons as [|b1 [|b2 [|b3 rest]]]; cbn [List.length]; try lia.
    exfalso. apply (f_equal (@List.length Button)) in Hall.
    rewrite button_chunks_step in Hall.
    cbn [map List.concat] in Hall. rewrite length_app in Hall.
    pose proof (length_concat_firstn 2
                  (_app.button_chunks (skipn 5 (b1 :: b2 :: b3 :: rest)))) as Hle.
    destruct (button_chunks_partition (skipn 5 (b1 :: b2 :: b3 :: rest)))
      as (Hcat & _).
    rewrite Hcat, length_skipn in Hle.
    cbn [firstn List.length] in Hall, Hle. lia.
  - intros Hlen.
    destruct buttons as [|b1 [|b2 [|b3 rest]]];
      [reflexivity | reflexivity | reflexivity | simpl in Hlen; lia].
Qed.

(* ------------------------------------------------------------------ *)
(** ** Further properties of the sweeps                                 *)
(* ------------------------------------------------------------------ *)

Lemma attempts_sweep_events f text runs :
  attempts (sweep_events f text runs)
  = map (fun r => (Some (_id (fst r)), phone_number (fst r),
                   Text (text (fst r)))) runs.
Proof.
  induction runs as [|[a [d u]] runs IH]; [reflexivity|].
  unfold sweep_events in *. cbn [map List.concat]. rewrite attempts_app, IH.
  destruct d; reflexivity.
Qed.

(** Every provider call of a tick is made for a document of the
    collection that the query selects, to its number and with its text. *)
Lemma sweep_attempts_due `{DatetimeLib} start lo hi f text sent failed o w :
  let r := sweep start lo hi f text sent failed o w in
  NoDup (map _id (db w)) ->
  forall about to p,
    In (about, to, p) (attempts (skipn (List.length (trace w)) (trace (snd r)))) ->
    exists a, In a (db w) /\ in_window lo hi f a = true
              /\ about = Some (_id a) /\ to = phone_number a
              /\ p = Text (text a).
Proof.
  intros r Hnd about to p Hin. subst r.
  destruct (mongo_up o (List.length (trace w))) eqn:Hup.
  - destruct (sweep_run start lo hi f text sent failed o w Hnd Hup)
      as (_ & _ & outs & logs & _ & _ & Htr & _).
    rewrite Htr, skipn_length_app in Hin. cbn [attempts] in Hin.
    rewrite attempts_sweep_events in Hin. apply in_map_iff in Hin.
    destruct Hin as ([a du] & Heq & Hin). apply in_combine_l in Hin.
    apply filter_In in Hin. destruct Hin as [Hin Hdue].
    cbn [fst] in Heq. inversion Heq; subst. exists a. auto.
  - destruct (sweep_query_fails start lo hi f text sent failed o w Hup)
      as (_ & Htr & _).
    cbv zeta in Htr. rewrite Htr, skipn_length_app in Hin. destruct Hin.
Qed.

(** A tick that finds nothing due makes the query and nothing else. *)
Lemma sweep_idle `{DatetimeLib} start lo hi f text sent failed o w :
  mongo_up o (List.length (trace w)) = true ->
  (forall a, In a (db w) -> in_window lo hi f a = false) ->
  let r := sweep start lo hi f text sent failed o w in
  fst r = Ok tt
  /\ trace (snd r) = trace w ++ [{| call := Find lo hi f; succeeded := true |}]
  /\ db (snd r) = db w
  /\ log (snd r) = log w ++ [{| level := INFO; message := start |}].
Proof.
  intros Hup Hnone. cbv zeta. unfold sweep. exec_sweep. rewrite Hup.
  assert (Hsel : filter (in_window lo hi f) (db w) = []).
  { clear Hup. induction (db w) as [|x docs IH]; [reflexivity|]. simpl.
    rewrite (Hnone x (or_introl eq_refl)). apply IH.
    intros a Hin. apply Hnone. now right. }
  rewrite Hsel. cbn [for_each]. unfold ret. cbn [fst snd db trace log].
  repeat split; reflexivity.
Qed.

(** A tick changes nothing in the collection but its own flag: the
    documents stay in place, each one as it was or with [reminder_sent]
    (for the reminder sweep) or [follow_up_sent] (for the follow-up
    sweep) set, so the reminder sweep never touches [follow_up_sent], the
    follow-up sweep never touches [reminder_sent], and neither adds,
    removes or reorders documents. *)
Theorem sweep_touches_only_its_flag `{DatetimeLib} :
  forall now o w,
    NoDup (map _id (db w)) ->
    Forall2 (fun a a' => a' = a \/ a' = set_flag ReminderSent a)
            (db w) (db (snd (send_reminder now o w)))
    /\ Forall2 (fun a a' => a' = a \/ a' = set_flag FollowUpSent a)
               (db w) (db (snd (send_follow_up now o w))).
Proof.
  intros now o w Hnd.
  assert (Hmap : forall (f : Flag) (g : Appointment -> Appointment) docs,
            (forall a, g a = a \/ g a = set_flag f a) ->
            Forall2 (fun a a' => a' = a \/ a' = set_flag f a) docs (map g docs)).
  { intros f g docs Hg. induction docs; simpl; constructor; auto. }
  split.
  - rewrite send_reminder_is_sweep.
    destruct (sweep_effect "Running reminder job." (now + hours 23)%Z
                (now + hours 25)%Z ReminderSent reminder_text
                "Sent reminder to " "Failed to send reminder to " o w Hnd)
      as (g & Hg & Hdb & _).
    cbv zeta in Hdb. rewrite Hdb. now apply Hmap.
  - rewrite send_follow_up_is_sweep.
    destruct (sweep_effect "Running follow-up job." (now - hours 24)%Z now
                FollowUpSent follow_up_text
                "Sent follow-up to " "Failed to send follow-up to " o w Hnd)
      as (g & Hg & Hdb & _).
    cbv zeta in Hdb. rewrite Hdb. now apply Hmap.
Qed.

Lemma sweep_touches_only_its_flag_witness :
  let due := booking 0 "whatsapp:+15550100" "" (moment 2099 1 2 10 0) in
  let now := moment 2099 1 1 10 30 in
  NoDup (map _id (db (world_of [due])))
  /\ Forall2 (fun a a' => a' = a \/ a' = set_flag ReminderSent a)
             (db (world_of [due]))
             (db (snd (send_reminder now healthy (world_of [due])))).
Proof.
  cbv zeta.
  assert (Hnd : NoDup (map _id (db (world_of
            [booking 0 "whatsapp:+15550100" "" (moment 2099 1 2 10 0)])))).
  { repeat constructor. intros []. }
  split; [exact Hnd|].
  exact (proj1 (sweep_touches_only_its_flag (moment 2099 1 1 10 30) healthy
                  (world_of [booking 0 "whatsapp:+15550100" ""
                               (moment 2099 1 2 10 0)]) Hnd)).
Defined.

(** When the query of a tick fails, the exception leaves the job: either
    sweep raises the store error, having made no provider call and
    changed nothing. *)
Theorem sweep_raises_when_query_fails `{DatetimeLib} :
  forall now o w,
    mongo_up o (List.length (trace w)) = false ->
    (fst (send_reminder now o w) = Raise PyMongoError
     /\ attempts (skipn (List.length (trace w))
                    (trace (snd (send_reminder now o w)))) = []
     /\ db (snd (send_reminder now o w)) = db w)
    /\ (fst (send_follow_up now o w) = Raise PyMongoError
        /\ attempts (skipn (List.length (trace w))
                       (trace (snd (send_follow_up now o w)))) = []
        /\ db (snd (send_follow_up now o w)) = db w).
Proof.
  intros now o w Hdown. split.
  - rewrite send_reminder_is_sweep.
    destruct (sweep_query_fails "Running reminder job." (now + hours 23)%Z
                (now + hours 25)%Z ReminderSent reminder_text
                "Sent reminder to " "Failed to send reminder to " o w Hdown)
      as (Hr & Htr & Hdb & _).
    cbv zeta in Htr. rewrite Htr, skipn_length_app. auto.
  - rewrite send_follow_up_is_sweep.
    destruct (sweep_query_fails "Running follow-up job." (now - hours 24)%Z now
                FollowUpSent follow_up_text
                "Sent follow-up to " "Failed to send follow-up to " o w Hdown)
      as (Hr & Htr & Hdb & _).
    cbv zeta in Htr. rewrite Htr, skipn_length_app. auto.
Qed.

Lemma sweep_raises_when_query_fails_witness :
  mongo_up store_down (List.length (trace empty_world)) = false
  /\ fst (send_reminder 0%Z store_down empty_world) = Raise PyMongoError.
Proof.
  split; [reflexivity|].
  exact (proj1 (proj1 (sweep_raises_when_query_fails 0%Z store_down empty_world
                         eq_refl))).
Defined.

(** A tick of either sweep that finds no appointment due, none with the
    flag unset and the date in the window to the millisecond, makes its
    query and nothing else: no provider call, no update, and it
    returns. *)
Theorem idle_tick_only_queries `{DatetimeLib} :
  forall now o w,
    mongo_up o (List.length (trace w)) = true ->
    ((forall a, In a (db w) ->
        in_window (now + hours 23)%Z (now + hours 25)%Z ReminderSent a = false) ->
     let r := send_reminder now o w in
     fst r = Ok tt
     /\ trace (snd r)
        = trace w ++ [{| call := Find (now + hours 23)%Z (now + hours 25)%Z
                                   ReminderSent;
                         succeeded := true |}]
     /\ db (snd r) = db w)
    /\ ((forall a, In a (db w) ->
           in_window (now - hours 24)%Z now FollowUpSent a = false) ->
        let r := send_follow_up now o w in
        fst r = Ok tt
        /\ trace (snd r)
           = trace w ++ [{| call := Find (now - hours 24)%Z now FollowUpSent;
                            succeeded := true |}]
        /\ db (snd r) = db w).
Proof.
  intros now o w Hup. split; intros Hnone; cbv zeta.
  - rewrite send_reminder_is_sweep.
    destruct (sweep_idle "Running reminder job." (now + hours 23)%Z
                (now + hours 25)%Z ReminderSent reminder_text
                "Sent reminder to " "Failed to send reminder to " o w Hup Hnone)
      as (Hr & Htr & Hdb & _).
    auto.
  - rewrite send_follow_up_is_sweep.
    destruct (sweep_idle "Running follow-up job." (now - hours 24)%Z now
                FollowUpSent follow_up_text
                "Sent follow-up to " "Failed to send follow-up to " o w Hup Hnone)
      as (Hr & Htr & Hdb & _).
    auto.
Qed.

Lemma idle_tick_only_queries_witness :
  let far := booking 0 "whatsapp:+15550100" "Haircut" (moment 2099 6 1 10 0) in
  let reminded :=
    set_flag ReminderSent
      (booking 1 "whatsapp:+15550111" "Haircut" (moment 2099 1 2 10 0)) in
  let now := moment 2099 1 1 10 30 in
  let w := world_of [far; reminded] in
  mongo_up healthy (List.length (trace w)) = true
  /\ (forall a, In a (db w) ->
        in_window (now + hours 23)%Z (now + hours 25)%Z ReminderSent a = false)
  /\ fst (send_reminder now healthy w) = Ok tt
  /\ db (snd (send_reminder now healthy w)) = [far; reminded].
Proof.
  intros far reminded now w.
  assert (Hnone : forall a, In a (db w) ->
            in_window (now + hours 23)%Z (now + hours 25)%Z ReminderSent a
            = false).
  { intros a [<- | [<- | []]]; vm_compute; reflexivity. }
  destruct (proj1 (idle_tick_only_queries now healthy w eq_refl) Hnone)
    as (Hr & _ & Hdb).
  split; [reflexivity|]. split; [exact Hnone|].
  split; [exact Hr | exact Hdb].
Defined.

(** An appointment dated, to the millisecond, less than 23 hours after
    the moment it was booked is never reminded: no tick of the reminder
    sweep at or after that moment makes a provider call for it, although
    the reply to the booking announces a reminder. *)
Theorem late_booking_is_never_reminded `{DatetimeLib} :
  forall a booked_at now o w,
    NoDup (map _id (db w)) ->
    In a (db w) ->
    (bson_datetime (appointment_date a)
     < bson_datetime (booked_at + hours 23))%Z ->
    (booked_at <= now)%Z ->
    forall to p,
      ~ In (Some (_id a), to, p)
           (attempts (skipn (List.length (trace w))
                        (trace (snd (send_reminder now o w))))).
Proof.
  intros a booked_at now o w Hnd Hin Hdate Hlater to p Hcall.
  rewrite send_reminder_is_sweep in Hcall.
  destruct (sweep_attempts_due "Running reminder job." (now + hours 23)%Z
              (now + hours 25)%Z ReminderSent reminder_text
              "Sent reminder to " "Failed to send reminder to " o w
              Hnd _ _ _ Hcall) as (b & Hb & Hdue & Hid & _).
  inversion Hid as [Hid'].
  assert (b = a) by (apply (same_key_same_document (db w)); auto).
  subst b. apply in_window_spec in Hdue.
  assert (Hmono : (bson_datetime (booked_at + hours 23)
                   <= bson_datetime (now + hours 23))%Z)
    by (apply bson_datetime_mono; lia).
  lia.
Qed.

Lemma late_booking_is_never_reminded_witness :
  let soon := booking 0 "whatsapp:+15550100" "" (moment 2099 1 1 12 0) in
  let t := moment 2099 1 1 10 0 in
  NoDup (map _id (db (world_of [soon])))
  /\ In soon (db (world_of [soon]))
  /\ (bson_datetime (appointment_date soon) < bson_datetime (t + hours 23))%Z
  /\ attempts (trace (snd (send_reminder t healthy (world_of [soon])))) = []
  /\ ~ In (Some (_id soon), "whatsapp:+15550100", Text "")
          (attempts (skipn (List.length (trace (world_of [soon])))
                       (trace (snd (send_reminder t healthy (world_of [soon])))))).
Proof.
  cbv zeta.
  set (soon := booking 0 "whatsapp:+15550100" "" (moment 2099 1 1 12 0)).
  set (t := moment 2099 1 1 10 0).
  assert (Hnd : NoDup (map _id (db (world_of [soon]))))
    by (repeat constructor; intros []).
  assert (Hin : In soon (db (world_of [soon]))) by (left; reflexivity).
  assert (Hdate : (bson_datetime (appointment_date soon)
                   < bson_datetime (t + hours 23))%Z)
    by (vm_compute; reflexivity).
  assert (Hle : (t <= t)%Z) by apply Z.le_refl.
  split; [exact Hnd|]. split; [exact Hin|]. split; [exact Hdate|].
  split; [vm_compute; reflexivity|].
  exact (late_booking_is_never_reminded soon t t healthy (world_of [soon])
           Hnd Hin Hdate Hle "whatsapp:+15550100" (Text "")).
Defined.

(** One iteration of the loop when the provider and the store answer. *)
Lemma notify_run_healthy `{DatetimeLib} f text sent failed a o w :
  store_reliable o -> provider_reliable o ->
  exists logs w',
    notify f text sent failed a o w = (Ok tt, w')
    /\ trace w' = trace w ++ record_events f text a true true
    /\ db w' = update_first (_id a) f (db w)
    /\ next_id w' = next_id w
    /\ log w' = log w ++ logs
    /\ errors logs = 0%nat.
Proof.
  intros Hstore Hprov. unfold notify, messages_create. exec_sweep.
  rewrite Hprov. exec_sweep. rewrite Hstore. exec_sweep.
  do 2 eexists. rewrite <- ?app_assoc. repeat split; reflexivity.
Qed.

Lemma notify_all_healthy `{DatetimeLib} f text sent failed o :
  store_reliable o -> provider_reliable o ->
  forall l w,
    NoDup (map _id (db w)) ->
    exists logs w',
      for_each l (notify f text sent failed) o w = (Ok tt, w')
      /\ trace w'
         = trace w ++ sweep_events f text (map (fun a => (a, (true, true))) l)
      /\ db w' = map (fun x => if existsb (fun a => (_id a =? _id x)%nat) l
                               then set_flag f x else x) (db w)
      /\ next_id w' = next_id w
      /\ log w' = log w ++ logs
      /\ errors logs = 0%nat.
Proof.
  intros Hstore Hprov. induction l as [|a l IH]; intros w Hnd.
  - exists [], w. simpl. unfold ret.
    repeat split; try (now rewrite app_nil_r).
    symmetry. erewrite map_ext; [apply map_id | reflexivity].
  - destruct (notify_run_healthy f text sent failed a o w Hstore Hprov)
      as (logs1 & w1 & Hrun & Htr & Hdb & Hnext & Hlog & Herr).
    rewrite update_first_map in Hdb by exact Hnd.
    assert (Hnd1 : NoDup (map _id (db w1))).
    { rewrite Hdb, map_keeps_ids; [exact Hnd|].
      intros x. destruct (_id x =? _id a)%nat;
        [apply set_flag_id | reflexivity]. }
    destruct (IH w1 Hnd1)
      as (logs2 & w' & Hrest & Htr' & Hdb' & Hnext' & Hlog' & Herr').
    exists (logs1 ++ logs2), w'.
    split; [|split; [|split; [|split; [|split]]]].
    + cbn [for_each]. unfold bind at 1. rewrite Hrun. exact Hrest.
    + rewrite Htr', Htr, <- app_assoc. reflexivity.
    + rewrite Hdb', Hdb, map_map. apply map_ext. intros x.
      cbn [existsb]. rewrite (Nat.eqb_sym (_id a) (_id x)).
      destruct (_id x =? _id a)%nat; cbn [orb].
      * rewrite set_flag_id.
        destruct (existsb _ l); [apply set_flag_twice | reflexivity].
      * reflexivity.
    + congruence.
    + rewrite Hlog', Hlog, <- app_assoc. reflexivity.
    + rewrite errors_app, Herr, Herr'. reflexivity.
Qed.

Lemma delivered_all_sent f text (l : list Appointment) :
  delivered (sweep_events f text (map (fun a => (a, (true, true))) l))
  = map _id l.
Proof.
  rewrite delivered_sweep_events.
  induction l as [|a l IH]; [reflexivity|]. simpl. now rewrite IH.
Qed.

Lemma in_window_after_set_flag lo hi f a :
  in_window lo hi f (set_flag f a) = false.
Proof.
  unfold in_window. destruct f; simpl; now rewrite andb_false_r.
Qed.

(** A tick with the store and the provider answering. *)
Lemma sweep_healthy `{DatetimeLib} start lo hi f text sent failed o w :
  store_reliable o -> provider_reliable o ->
  NoDup (map _id (db w)) ->
  let r := sweep start lo hi f text sent failed o w in
  fst r = Ok tt
  /\ db (snd r) = map (fun a => if in_window lo hi f a then set_flag f a else a)
                      (db w)
  /\ delivered (skipn (List.length (trace w)) (trace (snd r)))
     = map _id (filter (in_window lo hi f) (db w))
  /\ errors (skipn (List.length (log w)) (log (snd r))) = 0%nat.
Proof.
  intros Hstore Hprov Hnd. cbv zeta.
  unfold sweep, find_many, mongo.
  cbv beta iota zeta delta [bind logger]. cbn [db trace log next_id].
  rewrite Hstore.
  set (w0 := with_db _ _).
  destruct (notify_all_healthy f text sent failed o Hstore Hprov
              (filter (in_window lo hi f) (db w)) w0 Hnd)
    as (logs & w' & Hrun & Htr & Hdb & Hnext & Hlog & Herr).
  rewrite Hrun. cbn [fst snd].
  subst w0. cbn [db trace log next_id with_db with_event] in *.
  split; [reflexivity|]. split; [|split].
  - rewrite Hdb. apply map_ext_in. intros x Hx.
    destruct (in_window lo hi f x) eqn:Hdue.
    + assert (Hex : existsb (fun a => (_id a =? _id x)%nat)
                      (filter (in_window lo hi f) (db w)) = true).
      { apply existsb_exists. exists x. split.
        - apply filter_In. split; assumption.
        - apply Nat.eqb_refl. }
      now rewrite Hex.
    + destruct (existsb _ _) eqn:Hex; [|reflexivity].
      apply existsb_exists in Hex. destruct Hex as (a & Ha & Hid).
      apply filter_In in Ha. destruct Ha as [Ha Hdue'].
      apply Nat.eqb_eq in Hid.
      assert (a = x) by (apply (same_key_same_document (db w)); auto).
      subst a. congruence.
  - rewrite Htr, <- app_assoc, skipn_length_app.
    cbn [app delivered]. apply delivered_all_sent.
  - rewrite Hlog, <- app_assoc, skipn_length_app, errors_app, Herr.
    reflexivity.
Qed.

(** With the store and the provider answering, a tick of either sweep
    messages every record the query selects, those with the flag unset
    and the date in the window to the millisecond, and sets the flag to
    true, and nothing else, on exactly those records; a tick repeated at
    once, with the same clock reading, then finds nothing due and makes no
    provider call. *)
Theorem healthy_tick_settles_every_due_record `{DatetimeLib} :
  forall now o w,
    store_reliable o -> provider_reliable o ->
    NoDup (map _id (db w)) ->
    (let due := in_window (now + hours 23)%Z (now + hours 25)%Z ReminderSent in
     let w1 := snd (send_reminder now o w) in
     let w2 := snd (send_reminder now o w1) in
     fst (send_reminder now o w) = Ok tt
     /\ db w1 = map (fun a => if due a then set_flag ReminderSent a else a) (db w)
     /\ delivered (skipn (List.length (trace w)) (trace w1))
        = map _id (filter due (db w))
     /\ attempts (skipn (List.length (trace w1)) (trace w2)) = []
     /\ db w2 = db w1
     /\ forall a, flag_raised ReminderSent a (set_flag ReminderSent a))
    /\ (let due := in_window (now - hours 24)%Z now FollowUpSent in
        let w1 := snd (send_follow_up now o w) in
        let w2 := snd (send_follow_up now o w1) in
        fst (send_follow_up now o w) = Ok tt
        /\ db w1 = map (fun a => if due a then set_flag FollowUpSent a else a) (db w)
        /\ delivered (skipn (List.length (trace w)) (trace w1))
           = map _id (filter due (db w))
        /\ attempts (skipn (List.length (trace w1)) (trace w2)) = []
        /\ db w2 = db w1
        /\ forall a, flag_raised FollowUpSent a (set_flag FollowUpSent a)).
Proof.
  intros now o w Hstore Hprov Hnd.
  assert (Hgen : forall start lo hi f text sent failed,
    let w1 := snd (sweep start lo hi f text sent failed o w) in
    let w2 := snd (sweep start lo hi f text sent failed o w1) in
    fst (sweep start lo hi f text sent failed o w) = Ok tt
    /\ db w1 = map (fun a => if in_window lo hi f a then set_flag f a else a)
                   (db w)
    /\ delivered (skipn (List.length (trace w)) (trace w1))
       = map _id (filter (in_window lo hi f) (db w))
    /\ attempts (skipn (List.length (trace w1)) (trace w2)) = []
    /\ db w2 = db w1
    /\ forall a, flag_raised f a (set_flag f a)).
  { intros start lo hi f text sent failed w1 w2.
    destruct (sweep_healthy start lo hi f text sent failed o w Hstore Hprov Hnd)
      as (Hr & Hdb & Hdel & _).
    fold w1 in Hdb, Hdel.
    assert (Hnone : forall a, In a (db w1) -> in_window lo hi f a = false).
    { intros a Ha. rewrite Hdb in Ha. apply in_map_iff in Ha.
      destruct Ha as (x & <- & _).
      destruct (in_window lo hi f x) eqn:E;
        [apply in_window_after_set_flag | exact E]. }
    destruct (sweep_idle start lo hi f text sent failed o w1 (Hstore _) Hnone)
      as (_ & Htr2 & Hdb2 & _).
    fold w2 in Htr2, Hdb2.
    split; [exact Hr|]. split; [exact Hdb|]. split; [exact Hdel|].
    split; [|split; [exact Hdb2 | apply set_flag_raises]].
    rewrite Htr2, skipn_length_app. reflexivity. }
  split.
  - rewrite !send_reminder_is_sweep. apply Hgen.
  - rewrite !send_follow_up_is_sweep. apply Hgen.
Qed.

Lemma healthy_tick_settles_every_due_record_witness :
  let due := booking 0 "whatsapp:+15550100" "" (moment 2099 1 2 10 0) in
  let now := (moment 2099 1 1 11 0 + 500)%Z in
  store_reliable healthy /\ provider_reliable healthy
  /\ NoDup (map _id (db (world_of [due])))
  /\ (appointment_date due < now + hours 23)%Z
  /\ fst (send_reminder now healthy (world_of [due])) = Ok tt
  /\ map reminder_sent (db (snd (send_reminder now healthy (world_of [due]))))
     = [true].
Proof.
  intros due now.
  assert (Hs : store_reliable healthy) by (intro k; reflexivity).
  assert (Hp : provider_reliable healthy) by (intro k; reflexivity).
  assert (Hnd : NoDup (map _id (db (world_of [due]))))
    by (repeat constructor; intros []).
  split; [exact Hs|]. split; [exact Hp|]. split; [exact Hnd|].
  split; [vm_compute; reflexivity|].
  destruct (proj1 (healthy_tick_settles_every_due_record now healthy
                     (world_of [due]) Hs Hp Hnd))
    as (Hr & Hdb & _).
  split; [exact Hr|]. rewrite Hdb. vm_compute. reflexivity.
Defined.

(* ------------------------------------------------------------------ *)
(** ** Further properties of the system as a whole                      *)
(* ------------------------------------------------------------------ *)

Lemma step_keeps_documents `{DatetimeLib} `{TextLib} (w w' : World) :
  store_wf w -> step w w' ->
  forall a, In a (db w) -> exists a', In a' (db w') /\ descends a a'.
Proof.
  intros Hwf Hstep a Hin.
  assert (Hmap : forall (f : Flag) (g : Appointment -> Appointment) docs,
            (forall x, g x = x \/ g x = set_flag f x) ->
            db w' = map g docs -> In a docs ->
            exists a', In a' (db w') /\ descends a a').
  { intros f g docs Hg Hdb Ha. exists (g a). split.
    - rewrite Hdb. now apply in_map.
    - destruct (Hg a) as [-> | ->];
        [apply descends_refl | apply descends_set_flag]. }
  destruct Hstep as [request now o w | now o w | now o w].
  - exists a. split; [|apply descends_refl].
    destruct (whatsapp_reply_calls request now o w)
      as [[_ Hdb] | [(ok & _ & Hdb) | (d & ok & _ & _ & _ & Hdb)]];
      cbv zeta in Hdb; rewrite Hdb; auto.
    destruct ok; [apply in_or_app; now left | exact Hin].
  - rewrite send_reminder_is_sweep in *.
    destruct (sweep_effect "Running reminder job." (now + hours 23)%Z
                (now + hours 25)%Z ReminderSent reminder_text
                "Sent reminder to " "Failed to send reminder to " o w
                (proj1 Hwf)) as (g & Hg & Hdb & _).
    eapply Hmap; eauto.
  - rewrite send_follow_up_is_sweep in *.
    destruct (sweep_effect "Running follow-up job." (now - hours 24)%Z now
                FollowUpSent follow_up_text
                "Sent follow-up to " "Failed to send follow-up to " o w
                (proj1 Hwf)) as (g & Hg & Hdb & _).
    eapply Hmap; eauto.
Qed.

(** No appointment ever leaves the collection.  Along any sequence of
    webhook requests and sweep ticks, under any behaviour of the store
    and the provider, every document of the earlier collection is still
    in the later one, with its key and date and with no flag taken back:
    the branch that would delete it cannot be reached. *)
Theorem appointments_are_never_removed `{DatetimeLib} `{TextLib} :
  forall w w',
    store_wf w ->
    reachable w w' ->
    forall a, In a (db w) -> exists a', In a' (db w') /\ descends a a'.
Proof.
  intros w w' Hwf Hreach. induction Hreach as [w | w w2 w3 Hreach IH Hstep].
  - intros a Hin. exists a. split; [exact Hin | apply descends_refl].
  - intros a Hin. destruct (IH Hwf a Hin) as (a2 & Hin2 & Hd12).
    destruct (reachable_evolves w w2 Hwf Hreach) as [Hwf2 _].
    destruct (step_keeps_documents w2 w3 Hwf2 Hstep a2 Hin2)
      as (a3 & Hin3 & Hd23).
    exists a3. split; [exact Hin3 | eapply descends_trans; eassumption].
Qed.

Lemma appointments_are_never_removed_witness :
  let kept := booking 0 "whatsapp:+15550100" "" (moment 2099 1 2 10 0) in
  let w := world_of [kept] in
  let w' := snd (whatsapp_reply (inbound "cancel_booking")
                   (moment 2099 1 1 10 0) healthy w) in
  store_wf w /\ reachable w w' /\ In kept (db w)
  /\ exists a', In a' (db w') /\ descends kept a'.
Proof.
  cbv zeta.
  set (kept := booking 0 "whatsapp:+15550100" "" (moment 2099 1 2 10 0)).
  set (w := world_of [kept]).
  set (w' := snd (whatsapp_reply (inbound "cancel_booking")
                    (moment 2099 1 1 10 0) healthy w)).
  assert (Hwf : store_wf w).
  { split.
    - repeat constructor. intros [].
    - intros a [<- | []]. simpl. lia. }
  assert (Hreach : reachable w w').
  { apply (reach_step w w w' (reach_refl w)).
    apply (step_webhook (inbound "cancel_booking") (moment 2099 1 1 10 0)
             healthy w). }
  assert (Hin : In kept (db w)) by (left; reflexivity).
  split; [exact Hwf|]. split; [exact Hreach|]. split; [exact Hin|].
  exact (appointments_are_never_removed w w' Hwf Hreach kept Hin).
Defined.

(** Once the flag of an appointment is set, no later tick of the
    matching sweep makes a provider call for it, whatever happened in
    between: a reminded appointment is never reminded again, and
    likewise for the follow-up. *)
Theorem flagged_appointment_is_not_notified_again `{DatetimeLib} `{TextLib} :
  forall w w' a now o,
    store_wf w ->
    In a (db w) ->
    reachable w w' ->
    (reminder_sent a = true ->
     forall to p,
       ~ In (Some (_id a), to, p)
            (attempts (skipn (List.length (trace w'))
                         (trace (snd (send_reminder now o w'))))))
    /\ (follow_up_sent a = true ->
        forall to p,
          ~ In (Some (_id a), to, p)
               (attempts (skipn (List.length (trace w'))
                            (trace (snd (send_follow_up now o w')))))).
Proof.
  intros w w' a now o Hwf Hin Hreach.
  destruct (reachable_evolves w w' Hwf Hreach) as [Hwf' [_ Hfrom]].
  assert (Hsame : forall b, In b (db w') -> _id b = _id a -> descends a b).
  { intros b Hb Hid. destruct (Hfrom b Hb) as [Hnew | (a0 & Hin0 & Hdesc)].
    - destruct Hwf as [_ Hlt]. apply Hlt in Hin. lia.
    - assert (a0 = a).
      { apply (same_key_same_document (db w)); auto.
        - apply Hwf.
        - destruct Hdesc as [Hid0 _]. congruence. }
      now subst a0. }
  split.
  - intros Hflag to p Hcall. rewrite send_reminder_is_sweep in Hcall.
    destruct (sweep_attempts_due "Running reminder job." (now + hours 23)%Z
                (now + hours 25)%Z ReminderSent reminder_text
                "Sent reminder to " "Failed to send reminder to " o w'
                (proj1 Hwf') _ _ _ Hcall) as (b & Hb & Hdue & Hid & _).
    inversion Hid as [Hid'].
    destruct (Hsame b Hb (eq_sym Hid')) as (_ & _ & Hr & _).
    apply in_window_spec in Hdue. destruct Hdue as [_ Hunset].
    cbn [get_flag] in Hunset. rewrite (Hr Hflag) in Hunset. discriminate.
  - intros Hflag to p Hcall. rewrite send_follow_up_is_sweep in Hcall.
    destruct (sweep_attempts_due "Running follow-up job." (now - hours 24)%Z
                now FollowUpSent follow_up_text
                "Sent follow-up to " "Failed to send follow-up to " o w'
                (proj1 Hwf') _ _ _ Hcall) as (b & Hb & Hdue & Hid & _).
    inversion Hid as [Hid'].
    destruct (Hsame b Hb (eq_sym Hid')) as (_ & _ & _ & Hf).
    apply in_window_spec in Hdue. destruct Hdue as [_ Hunset].
    cbn [get_flag] in Hunset. rewrite (Hf Hflag) in Hunset. discriminate.
Qed.

Lemma flagged_appointment_is_not_notified_again_witness :
  let done := set_flag ReminderSent
                (booking 0 "whatsapp:+15550100" "" (moment 2099 1 2 10 0)) in
  let w := world_of [done] in
  store_wf w /\ In done (db w) /\ reachable w w
  /\ reminder_sent done = true
  /\ ~ In (Some (_id done), "whatsapp:+15550100", Text (reminder_text done))
          (attempts (skipn (List.length (trace w))
                       (trace (snd (send_reminder (moment 2099 1 1 10 30)
                                      healthy w))))).
Proof.
  cbv zeta.
  set (done := set_flag ReminderSent
                 (booking 0 "whatsapp:+15550100" "" (moment 2099 1 2 10 0))).
  set (w := world_of [done]).
  assert (Hwf : store_wf w).
  { split.
    - repeat constructor. intros [].
    - intros a [<- | []]. simpl. lia. }
  assert (Hin : In done (db w)) by (left; reflexivity).
  split; [exact Hwf|]. split; [exact Hin|]. split; [apply reach_refl|].
  split; [reflexivity|].
  exact (proj1 (flagged_appointment_is_not_notified_again w w done
                  (moment 2099 1 1 10 30) healthy Hwf Hin (reach_refl w))
           eq_refl "whatsapp:+15550100" (Text (reminder_text done))).
Defined.

(** Two ticks of a sweep in a row deliver at most once per record, when
    the flags of the first tick are in place before the second reads the
    collection. *)
Lemma sweep_twice_sends_once `{DatetimeLib} start lo1 hi1 lo2 hi2 f text
    sent failed o w :
  NoDup (map _id (db w)) ->
  let w1 := snd (sweep start lo1 hi1 f text sent failed o w) in
  let w2 := snd (sweep start lo2 hi2 f text sent failed o w1) in
  (forall a, In a (db w1) ->
     In (_id a) (delivered (skipn (List.length (trace w)) (trace w1))) ->
     get_flag f a = true) ->
  forall id,
    (count_occ Nat.eq_dec
       (delivered (skipn (List.length (trace w)) (trace w2))) id <= 1)%nat.
Proof.
  intros Hnd w1 w2 Hcommit id. subst w2.
  destruct (sweep_deliveries start lo1 hi1 f text sent failed o w Hnd)
    as (evs1 & Htr1 & Hnd1 & _ & Hids1).
  fold w1 in Htr1, Hids1.
  assert (Hndw1 : NoDup (map _id (db w1))) by now rewrite Hids1.
  destruct (sweep_deliveries start lo2 hi2 f text sent failed o w1 Hndw1)
    as (evs2 & Htr2 & Hnd2 & Hfrom2 & _).
  cbv zeta in Htr2. rewrite Htr2, Htr1, <- app_assoc, skipn_length_app.
  rewrite Htr1, skipn_length_app in Hcommit.
  rewrite delivered_app, count_occ_app.
  destruct (in_dec Nat.eq_dec id (delivered evs2)) as [Hin2 | Hout2].
  - assert (Hout1 : ~ In id (delivered evs1)).
    { intros Hin1. destruct (Hfrom2 id Hin2) as (a & Ha & Hid & Hflag).
      subst id. rewrite (Hcommit a Ha Hin1) in Hflag. discriminate. }
    rewrite (proj1 (count_occ_not_In Nat.eq_dec _ _) Hout1).
    apply (proj1 (NoDup_count_occ Nat.eq_dec _) Hnd2).
  - rewrite (proj1 (count_occ_not_In Nat.eq_dec _ _) Hout2), Nat.add_0_r.
    apply (proj1 (NoDup_count_occ Nat.eq_dec _) Hnd1).
Qed.

(** Two ticks of the follow-up sweep, the second starting from the world
    the first one leaves, at any two clock readings: if every record
    whose follow-up went through in the first tick has [follow_up_sent]
    set when the second tick reads the collection, no appointment gets
    more than one follow-up that went through. *)
Theorem follow_up_twice_sends_once `{DatetimeLib} :
  forall now1 now2 o w,
    NoDup (map _id (db w)) ->
    let w1 := snd (send_follow_up now1 o w) in
    let w2 := snd (send_follow_up now2 o w1) in
    (forall a, In a (db w1) ->
       In (_id a) (delivered (skipn (List.length (trace w)) (trace w1))) ->
       follow_up_sent a = true) ->
    forall id,
      (count_occ Nat.eq_dec
         (delivered (skipn (List.length (trace w)) (trace w2))) id <= 1)%nat.
Proof.
  intros now1 now2 o w Hnd. cbv zeta. rewrite !send_follow_up_is_sweep.
  apply (sweep_twice_sends_once "Running follow-up job."
           (now1 - hours 24)%Z now1 (now2 - hours 24)%Z now2 FollowUpSent
           follow_up_text "Sent follow-up to " "Failed to send follow-up to "
           o w Hnd).
Qed.

Lemma follow_up_twice_sends_once_witness :
  let w := world_of [booking 0 "whatsapp:+15550100" "" (moment 2099 1 1 10 0)] in
  let now := moment 2099 1 1 12 0 in
  NoDup (map _id (db w))
  /\ delivered (skipn (List.length (trace w))
                  (trace (snd (send_follow_up now healthy
                                 (snd (send_follow_up now healthy w))))))
     = [0%nat]
  /\ (count_occ Nat.eq_dec
        (delivered (skipn (List.length (trace w))
                      (trace (snd (send_follow_up now healthy
                                     (snd (send_follow_up now healthy w)))))))
        0 <= 1)%nat.
Proof.
  cbv zeta.
  set (w := world_of [booking 0 "whatsapp:+15550100" "" (moment 2099 1 1 10 0)]).
  set (now := moment 2099 1 1 12 0).
  assert (Hnd : NoDup (map _id (db w))).
  { repeat constructor. intros []. }
  assert (Hcommit :
    forall a, In a (db (snd (send_follow_up now healthy w))) ->
              In (_id a) (delivered (skipn (List.length (trace w))
                            (trace (snd (send_follow_up now healthy w))))) ->
              follow_up_sent a = true).
  { intros a Hin _.
    assert (Hdb : db (snd (send_follow_up now healthy w))
                  = [set_flag FollowUpSent
                       (booking 0 "whatsapp:+15550100" "" (moment 2099 1 1 10 0))])
      by (vm_compute; reflexivity).
    rewrite Hdb in Hin. destruct Hin as [<- | []]. reflexivity. }
  split; [exact Hnd|]. split; [vm_compute; reflexivity|].
  exact (follow_up_twice_sends_once now now healthy w Hnd Hcommit 0%nat).
Defined.

(* ------------------------------------------------------------------ *)
(** ** The handler of [_app.py]                                         *)
(* ------------------------------------------------------------------ *)

Ltac exec_alt :=
  cbv beta iota zeta delta
    [whatsapp_reply _app.whatsapp_reply validate_twilio_request
     send_interactive_message
     cancel_branch date_branch _app.date_branch
     find_one delete_one insert_one mongo messages_create
     bind ret raise try_except logger with_event with_db Exception IsValueError
     negb];
  cbn [db trace log next_id fst snd].

Ltac split_on_rules_alt :=
  repeat match goal with
         | |- context [if ?b then _ else _] =>
             lazymatch b with
             | context [contains] => destruct b eqn:?
             | (_ =? _)%nat => destruct b eqn:?
             end; exec_alt
         end.

(** The greeting of [_app.py]: one provider call, with both buttons. *)
Lemma chunked_greeting_run to o w :
  exists w',
    _app.send_interactive_message to greeting_msg greeting_buttons o w
    = (Ok (Some true), w')
    /\ trace w'
       = trace w ++ [{| call := MessagesCreate None to
                                  (PersistentAction greeting_msg greeting_buttons);
                        succeeded := twilio_up o (List.length (trace w)) |}]
    /\ db w' = db w /\ next_id w' = next_id w.
Proof.
  unfold _app.send_interactive_message, try_except. unfold bind at 1.
  change (_app.button_chunks greeting_buttons) with [greeting_buttons].
  cbn [for_each]. unfold _app.send_single_interactive_message. exec_app.
  change (2 <? len greeting_buttons)%Z with false. exec_app.
  destruct (twilio_up o (List.length (trace w))); exec_app;
    eexists; repeat split; reflexivity.
Qed.

(** [_app.py] books only after its side message has gone out.  For a
    message that reaches the date rule with a date not earlier than now,
    the handler first sends the text "Lavdya" to a fixed number; if the
    provider refuses it, nothing is inserted and the reply is the generic
    apology; otherwise the insertion is tried, and the appointment is
    stored, its date kept to the millisecond, and confirmed exactly when
    the store accepts it. *)
Theorem side_message_gates_the_booking `{DatetimeLib} `{TextLib} :
  forall request now o w d,
    signature_valid request = true ->
    reaches_date_branch (lower (form_Body request)) = true ->
    strptime (lower (form_Body request)) = Some d ->
    (now <= d)%Z ->
    let r := _app.whatsapp_reply request now o w in
    let sent := twilio_up o (List.length (trace w)) in
    let stored := mongo_up o (List.length (trace w) + 1) in
    let doc := booking (next_id w) (form_From request) "" (bson_datetime d) in
    trace (snd r)
    = trace w
      ++ {| call := MessagesCreate None "whatsapp:+918411005883" (Text "Lavdya");
            succeeded := sent |}
         :: (if sent then [{| call := InsertOne doc; succeeded := stored |}]
             else [])
    /\ db (snd r) = (if sent && stored then db w ++ [doc] else db w)
    /\ fst r
       = Ok (Some (if sent && stored then scheduled_reply "" d
                   else "An error occurred while processing your request. Please try again later.")).
Proof.
  intros request now o w d Hsig Hreach Hparse Hle r sent stored doc.
  subst r sent stored doc.
  apply reaches_date_branch_inv in Hreach.
  destruct Hreach as (H1 & H2 & H3 & H4 & H5 & H6).
  apply Z.ltb_ge in Hle.
  unfold _app.whatsapp_reply, validate_twilio_request.
  rewrite Hsig. exec_alt. rewrite H1, H2, H3, H4, H5, H6. exec_alt.
  rewrite Hparse. exec_alt. rewrite Hle. exec_alt.
  destruct (twilio_up o (List.length (trace w))); exec_alt.
  - rewrite length_app. cbn [List.length].
    destruct (mongo_up o (List.length (trace w) + 1)); exec_alt;
      rewrite <- ?app_assoc; repeat split; reflexivity.
  - repeat split; reflexivity.
Qed.

Lemma side_message_gates_the_booking_witness :
  let down := {| mongo_up := fun _ => true; twilio_up := fun _ => false |} in
  let r := _app.whatsapp_reply (inbound "2099-01-01 10:00")
             (moment 2024 1 1 9 0) down empty_world in
  signature_valid (inbound "2099-01-01 10:00") = true
  /\ reaches_date_branch (lower (form_Body (inbound "2099-01-01 10:00"))) = true
  /\ strptime (lower (form_Body (inbound "2099-01-01 10:00")))
     = Some (moment 2099 1 1 10 0)
  /\ (moment 2024 1 1 9 0 <= moment 2099 1 1 10 0)%Z
  /\ db (snd r) = []
  /\ fst r = Ok (Some "An error occurred while processing your request. Please try again later.").
Proof.
  cbv zeta.
  assert (Hle : (moment 2024 1 1 9 0 <= moment 2099 1 1 10 0)%Z)
    by (vm_compute; discriminate).
  assert (Hparse : strptime (lower (form_Body (inbound "2099-01-01 10:00")))
                   = Some (moment 2099 1 1 10 0)) by reflexivity.
  assert (Hreach : reaches_date_branch
                     (lower (form_Body (inbound "2099-01-01 10:00"))) = true)
    by reflexivity.
  split; [reflexivity|]. split; [exact Hreach|]. split; [exact Hparse|].
  split; [exact Hle|].
  destruct (side_message_gates_the_booking (inbound "2099-01-01 10:00")
              (moment 2024 1 1 9 0)
              {| mongo_up := fun _ => true; twilio_up := fun _ => false |}
              empty_world (moment 2099 1 1 10 0) eq_refl Hreach Hparse Hle)
    as (_ & Hdb & Hr).
  split; [exact Hdb | exact Hr].
Defined.

(** The two handlers agree whenever the store and the provider answer.
    Each file checks the signature of a request against its own token,
    so the verdict belongs to the request as the file that handles it
    sees it.  A message handled by [app.py] and a message with the same
    body and sender handled by [_app.py], both accepted or both rejected
    by the validator of their file, get the same reply or the same abort
    and leave the same collection. *)
Theorem variants_agree_when_all_is_up `{DatetimeLib} `{TextLib} :
  forall request1 request2 now o w,
    form_Body request1 = form_Body request2 ->
    form_From request1 = form_From request2 ->
    signature_valid request1 = signature_valid request2 ->
    store_reliable o -> provider_reliable o ->
    let r1 := whatsapp_reply request1 now o w in
    let r2 := _app.whatsapp_reply request2 now o w in
    fst r1 = fst r2
    /\ db (snd r1) = db (snd r2)
    /\ next_id (snd r1) = next_id (snd r2).
Proof.
  intros request1 request2 now o w Hbody Hfrom Hsig Hstore Hprov r1 r2.
  subst r1 r2.
  unfold whatsapp_reply, _app.whatsapp_reply, validate_twilio_request.
  rewrite Hbody, Hfrom, Hsig.
  destruct (signature_valid request2); exec_alt.
  2: { repeat split; reflexivity. }
  split_on_rules_alt.
  all: try (change (3 <? len greeting_buttons)%Z with false; exec_alt).
  all: repeat (first [rewrite Hstore | rewrite Hprov]; exec_alt).
  all: try match goal with
           | |- context [_app.send_interactive_message ?t greeting_msg
                           greeting_buttons ?o ?w0] =>
               destruct (chunked_greeting_run t o w0)
                 as (w' & Hrun & _ & Hdb & Hnext);
               rewrite Hrun; exec_alt; cbn [db next_id] in Hdb, Hnext
           end.
  all: repeat match goal with
         | |- context [match ?x with Some _ => _ | None => _ end] =>
             destruct x eqn:?; exec_alt
         | |- context [if (?a <? ?b)%Z then _ else _] =>
             destruct (a <? b)%Z eqn:?; exec_alt
         end.
  all: repeat (first [rewrite Hstore | rewrite Hprov]; exec_alt).
  all: repeat split; congruence.
Qed.

Lemma variants_agree_when_all_is_up_witness :
  let first :=
    {| form_Body := "2099-01-01 10:00"; form_From := "whatsapp:+15550100";
       signature_valid := true;
       request_url := "https://bot.example/whatsapp";
       request_host := "bot.example"; request_path := "/whatsapp";
       header_signature := "c2lnbmF0dXJl"; header_forwarded_proto := "";
       form_text := "ImmutableMultiDict([])";
       values_text := "CombinedMultiDict([])" |} in
  let second :=
    {| form_Body := "2099-01-01 10:00"; form_From := "whatsapp:+15550100";
       signature_valid := true;
       request_url := "http://10.0.0.7:5000/whatsapp";
       request_host := "bot.example"; request_path := "/whatsapp";
       header_signature := "YW5vdGhlcg=="; header_forwarded_proto := "https";
       form_text := "ImmutableMultiDict([])";
       values_text := "CombinedMultiDict([])" |} in
  store_reliable healthy /\ provider_reliable healthy
  /\ fst (whatsapp_reply first (moment 2024 1 1 9 0) healthy empty_world)
     = fst (_app.whatsapp_reply second (moment 2024 1 1 9 0) healthy
              empty_world)
  /\ db (snd (whatsapp_reply first (moment 2024 1 1 9 0) healthy empty_world))
     = [booking 0 "whatsapp:+15550100" "" (moment 2099 1 1 10 0)].
Proof.
  intros first second.
  assert (Hs : store_reliable healthy) by (intro k; reflexivity).
  assert (Hp : provider_reliable healthy) by (intro k; reflexivity).
  split; [exact Hs|]. split; [exact Hp|].
  split; [|vm_compute; reflexivity].
  exact (proj1 (variants_agree_when_all_is_up first second
                  (moment 2024 1 1 9 0) healthy empty_world
                  eq_refl eq_refl eq_refl Hs Hp)).
Defined.

(** With the provider down the two handlers part ways on a booking:
    [app.py] stores and confirms it, [_app.py] apologises and stores
    nothing. *)
Example variants_differ_when_provider_is_down :
  let down := {| mongo_up := fun _ => true; twilio_up := fun _ => false |} in
  let r1 := whatsapp_reply (inbound "2099-01-01 10:00") (moment 2024 1 1 9 0)
              down empty_world in
  let r2 := _app.whatsapp_reply (inbound "2099-01-01 10:00")
              (moment 2024 1 1 9 0) down empty_world in
  List.length (db (snd r1)) = 1%nat /\ db (snd r2) = []
  /\ fst r2 = Ok (Some apology_reply).
Proof. cbv zeta. by_computation. Qed.

(** The handler of [_app.py] never raises on an authenticated request
    either.  A failed store call, or a refused side message of the date
    branch, ends in the generic apology; a refused greeting is absorbed
    by the dispatcher.  And no request makes it query or delete. *)
Theorem second_handler_never_raises `{DatetimeLib} `{TextLib} :
  forall request now o w,
    signature_valid request = true ->
    let r := _app.whatsapp_reply request now o w in
    exists response evs,
      fst r = Ok response
      /\ trace (snd r) = trace w ++ evs
      /\ (forall e, In e evs ->
            match call e with
            | MessagesCreate _ _ _ | InsertOne _ => True
            | _ => False
            end)
      /\ ((exists e, In e evs /\ succeeded e = false
                     /\ (is_store_call (call e) = true
                         \/ call e = MessagesCreate None "whatsapp:+918411005883"
                                       (Text "Lavdya"))) ->
          response = Some "An error occurred while processing your request. Please try again later.").
Proof.
  intros request now o w Hsig r. subst r.
  change "An error occurred while processing your request. Please try again later."
    with apology_reply.
  unfold _app.whatsapp_reply, validate_twilio_request. rewrite Hsig. exec_alt.
  split_on_rules_alt.
  4: { exfalso.
    match goal with
    | Hb : contains "book_now" _ || contains "book" _ = false,
      Hc : contains "cancel_booking" _ = true |- _ =>
        apply orb_false_iff in Hb; destruct Hb as [_ Hb];
        apply no_book_words in Hb; destruct Hb as (_ & _ & Hb);
        rewrite Hb in Hc; discriminate
    end. }
  1: { match goal with
       | |- context [_app.send_interactive_message ?t greeting_msg
                       greeting_buttons ?o ?w0] =>
           destruct (chunked_greeting_run t o w0)
             as (w' & Hrun & Htr & _); rewrite Hrun; exec_alt;
           cbn [trace] in Htr
       end.
       do 2 eexists. split; [reflexivity|]. split; [exact Htr|]. split.
       - intros e [<- | []]. exact I.
       - intros (e & [<- | []] & Hf & [Hs | Hc]); cbn in Hs || cbn in Hc;
           discriminate. }
  all: repeat match goal with
         | |- context [match ?x with Some _ => _ | None => _ end] =>
             destruct x eqn:?; exec_alt
         | |- context [if (?a <? ?b)%Z then _ else _] =>
             destruct (a <? b)%Z eqn:?; exec_alt
         end.
  all: repeat match goal with
         | |- context [mongo_up ?o ?k] => destruct (mongo_up o k) eqn:?; exec_alt
         | |- context [twilio_up ?o ?k] => destruct (twilio_up o k) eqn:?; exec_alt
         end.
  all: do 2 eexists; rewrite <- ?app_assoc;
       (split; [reflexivity|]);
       (split; [first [reflexivity | symmetry; apply app_nil_r]|]).
  all: split;
       [ intros e Hin; simpl in Hin;
         repeat match goal with
                | Hin : _ \/ _ |- _ => destruct Hin as [<- | Hin]
                | Hin : False |- _ => destruct Hin
                end; exact I
       | intros (e & Hin & Hf & Hwhich); simpl in Hin;
         repeat match goal with
                | Hin : _ \/ _ |- _ => destruct Hin as [<- | Hin]
                | Hin : False |- _ => destruct Hin
                end; simpl in Hf; try discriminate; try reflexivity ].
Qed.

Lemma second_handler_never_raises_witness :
  signature_valid (inbound "2099-01-01 10:00") = true
  /\ exists response,
       fst (_app.whatsapp_reply (inbound "2099-01-01 10:00") 0%Z store_down
              empty_world) = Ok response.
Proof.
  split; [reflexivity|].
  destruct (second_handler_never_raises (inbound "2099-01-01 10:00") 0%Z
              store_down empty_world eq_refl) as (response & _ & Hr & _).
  exists response. exact Hr.
Defined.
